(** * defenv: typed access to environment variables with defaults

    A shallow embedding of [defenv.go] (package [defenv]) and of the parts of
    the Go standard library it calls, followed by the properties of the
    ordinary and strict accessors.

    Data model:
    - a Go [string] is a sequence of bytes: [string] of [ascii];
    - the process environment is a finite map from names to values,
      [gmap string string], read through [LookupEnv];
    - [int64]/[uint64] are [Z] with the wrap-around written out; [int] and
      [uint] have the platform width [IntSize];
    - [time.Duration] is an [int64] count of nanoseconds;
    - [float64] is the binary64 type [PrimFloat.float];
    - a Go [error] is [option err]: [None] is [nil]. *)

From Stdlib Require Import ZArith Lia String Ascii List.
From Stdlib Require Import PrimFloat.
From Stdlib Require SpecFloat FloatOps.
From stdpp Require Import base option strings gmap pretty.

Local Open Scope string_scope.
Local Open Scope Z_scope.

(** ** Go values *)

Module Go.

(** Bytes of a string as numbers, as in [s[i]]. *)
Definition byte_of (c : ascii) : Z := Z.of_N (N_of_ascii c).

Definition uint64_wrap (x : Z) : Z := x mod 2 ^ 64.

(** Conversion to a signed integer of [w] bits (two's complement). *)
Definition signed_wrap (w : Z) (x : Z) : Z :=
  let m := x mod 2 ^ w in
  if m <? 2 ^ (w - 1) then m else m - 2 ^ w.

Definition int64_wrap (x : Z) : Z := signed_wrap 64 x.

Definition maxUint64 : Z := 2 ^ 64 - 1.

Definition float64 : Set := PrimFloat.float.

End Go.

(** ** Errors *)

(** The [Err] field of a [strconv.NumError]: [strconv.ErrSyntax],
    [strconv.ErrRange], or the error made by [bitSizeError]. *)
Inductive numErr : Set :=
| ErrSyntax
| ErrRange
| ErrBitSize (bitSize : Z).

(** Error values: [*strconv.NumError] and the string errors of
    [errors.New] (used by package [time]). *)
Inductive err : Set :=
| NumError (Func Num : string) (Err : numErr)
| errorString (s : string).

Definition error : Set := option err.
Definition nil : error := None.

(** ** Package [strconv] (Go standard library)

    [defenv.go] imports [strconv]; its code is not part of the repository.
    The definitions below follow the standard library's [atob.go] and
    [atoi.go], with the [base] argument fixed to 10, the only base the
    accessors pass (so the base-0 prefix and underscore handling cannot be
    entered). [ParseFloat] and [Quote] are taken as parameters where they are
    used. *)

Module strconv.

Definition syntaxError (fn str : string) : err := NumError fn str ErrSyntax.
Definition rangeError (fn str : string) : err := NumError fn str ErrRange.
Definition bitSizeError (fn str : string) (bitSize : Z) : err :=
  NumError fn str (ErrBitSize bitSize).

(** [ParseBool]: a [switch] over twelve literal tokens. *)
Definition ParseBool (str : string) : bool * error :=
  if existsb (String.eqb str) ["1"; "t"; "T"; "true"; "TRUE"; "True"] then
    (true, nil)
  else if existsb (String.eqb str) ["0"; "f"; "F"; "false"; "FALSE"; "False"] then
    (false, nil)
  else
    (false, Some (syntaxError "ParseBool" str)).

(** [lower(c)]: [c | ('x' - 'X')]. *)
Definition lower (c : Z) : Z := Z.lor c 32.

Definition base : Z := 10.

(** The [switch] of the digit loop: the value [d] of byte [c], or no value
    ([default]: syntax error). The first case, [c == '_' && base0], cannot
    fire in base 10. *)
Definition digitVal (c : Z) : option Z :=
  if (48 <=? c) && (c <=? 57) then Some (c - 48)
  else if (97 <=? lower c) && (lower c <=? 122) then Some (lower c - 97 + 10)
  else None.

(** [cutoff = maxUint64/10 + 1]: the smallest number such that
    [cutoff*base > maxUint64]. *)
Definition cutoff : Z := Go.maxUint64 / 10 + 1.

(** The loop [for _, c := range []byte(s)] of [ParseUint]; [n] is the
    accumulator, a [uint64]. Every [return] inside the loop ends it. *)
Fixpoint ParseUint_loop (s0 : string) (maxVal : Z) (s : string) (n : Z)
  : Z * error :=
  match s with
  | EmptyString => (n, nil)
  | String ch rest =>
      match digitVal (Go.byte_of ch) with
      | None => (0, Some (syntaxError "ParseUint" s0))
      | Some d =>
          if d >=? base then (0, Some (syntaxError "ParseUint" s0))
          else if n >=? cutoff then
            (* n*base overflows *)
            (maxVal, Some (rangeError "ParseUint" s0))
          else
            let n := Go.uint64_wrap (n * base) in
            let n1 := Go.uint64_wrap (n + d) in
            if (n1 <? n) || (n1 >? maxVal) then
              (* n+d overflows *)
              (maxVal, Some (rangeError "ParseUint" s0))
            else ParseUint_loop s0 maxVal rest n1
      end
  end.

Section IntSize.

(** [strconv.IntSize]: the size in bits of an [int] or [uint] value. *)
Variable IntSize : Z.

(** [ParseUint(s, 10, bitSize)]. *)
Definition ParseUint (s : string) (bitSize : Z) : Z * error :=
  if String.eqb s "" then (0, Some (syntaxError "ParseUint" s))
  else
    let s0 := s in
    if (bitSize <? 0) || (bitSize >? 64) then
      (0, Some (bitSizeError "ParseUint" s0 bitSize))
    else
      let bitSize := if bitSize =? 0 then IntSize else bitSize in
      let maxVal :=
        Go.uint64_wrap (Go.uint64_wrap (Z.shiftl 1 bitSize) - 1) in
      ParseUint_loop s0 maxVal s 0.

(** [ParseInt(s, 10, bitSize)]. *)
Definition ParseInt (s : string) (bitSize : Z) : Z * error :=
  match s with
  | EmptyString => (0, Some (syntaxError "ParseInt" s))
  | String c rest =>
      let s0 := s in
      (* Pick off leading sign. *)
      let '(neg, s) :=
        if Ascii.eqb c "+" then (false, rest)
        else if Ascii.eqb c "-" then (true, rest)
        else (false, s) in
      (* Convert unsigned and check range. *)
      let '(un, err) := ParseUint s bitSize in
      match err with
      | Some (NumError _ _ ErrSyntax) =>
          (0, Some (NumError "ParseInt" s0 ErrSyntax))
      | Some (NumError _ _ (ErrBitSize b)) =>
          (0, Some (NumError "ParseInt" s0 (ErrBitSize b)))
      | Some (errorString m) =>
          (* not reached: ParseUint only returns NumError values *)
          (0, Some (errorString m))
      | _ =>
          let bitSize := if bitSize =? 0 then IntSize else bitSize in
          let cutoff := Go.uint64_wrap (Z.shiftl 1 (bitSize - 1)) in
          if negb neg && (un >=? cutoff) then
            (Go.int64_wrap (cutoff - 1), Some (rangeError "ParseInt" s0))
          else if neg && (un >? cutoff) then
            (Go.int64_wrap (- Go.int64_wrap cutoff),
             Some (rangeError "ParseInt" s0))
          else
            let n := Go.int64_wrap un in
            let n := if neg then Go.int64_wrap (- n) else n in
            (n, nil)
      end
  end.

End IntSize.

(** The [Error] method of [NumError] and the messages of the three [Err]
    values. *)
Definition numErr_Error (e : numErr) : string :=
  match e with
  | ErrSyntax => "invalid syntax"
  | ErrRange => "value out of range"
  | ErrBitSize bitSize => "invalid bit size " +:+ pretty bitSize
  end.

Definition NumError_Error (Quote : string -> string) (Func Num : string)
    (Err : numErr) : string :=
  "strconv." +:+ Func +:+ ": parsing " +:+ Quote Num +:+ ": "
    +:+ numErr_Error Err.

End strconv.

(** [err.Error()]: the message of an error value. *)
Definition Error (Quote : string -> string) (e : err) : string :=
  match e with
  | NumError f n k => strconv.NumError_Error Quote f n k
  | errorString s => s
  end.

(** ** Package [time] (Go standard library): [ParseDuration]

    [defenv.go] calls [time.ParseDuration]; its code is not part of the
    repository. The definitions below follow the standard library's
    [format.go]: [quote], [leadingInt], [leadingFraction], [unitMap] and
    [ParseDuration], with [uint64] arithmetic and the [float64] product that
    scales a fraction. The messages put the text between double quotes
    ([quote]); the expected messages in the repository's [TestDurationStrict]
    are those of an older release, which did not. *)

Module time.

Definition Nanosecond : Z := 1.
Definition Microsecond : Z := 1000 * Nanosecond.
Definition Millisecond : Z := 1000 * Microsecond.
Definition Second : Z := 1000 * Millisecond.
Definition Minute : Z := 60 * Second.
Definition Hour : Z := 60 * Minute.

(** [lowerhex[n]]. *)
Definition lowerhex (n : Z) : ascii :=
  ascii_of_N (Z.to_N (if n <? 10 then 48 + n else 87 + n)).

(** One byte of [quote]: a byte at or above [runeSelf] or below the blank is
    written as a backslash, [x] and two hexadecimal digits (the loop of
    [quote] does so for each byte of a rune, valid or not), the double quote
    and the backslash get a backslash in front, every other byte is kept. *)
Definition quoteByte (ch : ascii) : string :=
  let c := Go.byte_of ch in
  let backslash := ascii_of_N 92 in
  if (128 <=? c) || (c <? 32) then
    String backslash
      (String "x" (String (lowerhex (Z.shiftr c 4))
                     (String (lowerhex (Z.land c 15)) EmptyString)))
  else if (c =? 34) || (c =? 92) then String backslash (String ch EmptyString)
  else String ch EmptyString.

Fixpoint quoteBytes (s : string) : string :=
  match s with
  | EmptyString => EmptyString
  | String ch rest => quoteByte ch +:+ quoteBytes rest
  end.

(** [quote(s)]: the text between double quotes, with its escapes. *)
Definition quote (s : string) : string :=
  let dq := String (ascii_of_N 34) EmptyString in
  dq +:+ quoteBytes s +:+ dq.

Definition isDigitByte (c : Z) : bool := (48 <=? c) && (c <=? 57).

(** [leadingInt] consumes the leading [0-9]* of [s]; [x] is the number read
    so far. [None] is [errLeadingInt] (overflow). *)
Fixpoint leadingInt (s : string) (x : Z) : option (Z * string) :=
  match s with
  | EmptyString => Some (x, EmptyString)
  | String ch rest =>
      let c := Go.byte_of ch in
      if (c <? 48) || (c >? 57) then Some (x, s)
      else if x >? 2 ^ 63 / 10 then None
      else
        let x := Go.uint64_wrap (Go.uint64_wrap (x * 10 + c) - 48) in
        if x >? 2 ^ 63 then None else leadingInt rest x
  end.

(** [leadingFraction] consumes the leading [0-9]* of [s]; on overflow it
    stops accumulating precision and goes on consuming digits. *)
Fixpoint leadingFraction (s : string) (x : Z) (scale : Go.float64)
    (overflow : bool) : Z * Go.float64 * string :=
  match s with
  | EmptyString => (x, scale, EmptyString)
  | String ch rest =>
      let c := Go.byte_of ch in
      if (c <? 48) || (c >? 57) then (x, scale, s)
      else if overflow then leadingFraction rest x scale overflow
      else if x >? (2 ^ 63 - 1) / 10 then leadingFraction rest x scale true
      else
        let y := Go.uint64_wrap (Go.uint64_wrap (x * 10 + c) - 48) in
        if y >? 2 ^ 63 then leadingFraction rest x scale true
        else leadingFraction rest y (scale * 10)%float false
  end.

(** The unit loop: [u := s[:i]] and [s[i:]], where [i] is the index of the
    first byte that is a dot or a digit. *)
Fixpoint splitUnit (s : string) : string * string :=
  match s with
  | EmptyString => (EmptyString, EmptyString)
  | String ch rest =>
      let c := Go.byte_of ch in
      if (c =? 46) || isDigitByte c then (EmptyString, s)
      else let '(u, s') := splitUnit rest in (String ch u, s')
  end.

(** The two spellings of the micro sign in UTF-8: U+00B5 and U+03BC. *)
Definition micro_s : string :=
  String (ascii_of_N 194) (String (ascii_of_N 181) "s").
Definition mu_s : string :=
  String (ascii_of_N 206) (String (ascii_of_N 188) "s").

Definition unitMap (u : string) : option Z :=
  if String.eqb u "ns" then Some Nanosecond
  else if String.eqb u "us" then Some Microsecond
  else if String.eqb u micro_s then Some Microsecond
  else if String.eqb u mu_s then Some Microsecond
  else if String.eqb u "ms" then Some Millisecond
  else if String.eqb u "s" then Some Second
  else if String.eqb u "m" then Some Minute
  else if String.eqb u "h" then Some Hour
  else None.

(** The conversion [float64(x)] of a [uint64]: the nearest binary64 value,
    ties to even. *)
Definition float64_of_uint64 (x : Z) : Go.float64 :=
  FloatOps.SF2Prim
    (SpecFloat.binary_normalize FloatOps.prec FloatOps.emax x 0 false).

(** The conversion [uint64(f)] of a [float64] that is finite and not
    negative: the fraction is discarded. (ParseDuration converts a product
    of positive finite values below 3.6e12.) *)
Definition uint64_of_float64 (f : Go.float64) : Z :=
  match FloatOps.Prim2SF f with
  | SpecFloat.S754_finite false m e =>
      Go.uint64_wrap (if 0 <=? e then Zpos m * 2 ^ e else Zpos m / 2 ^ (- e))
  | _ => 0
  end.

Definition invalidDuration (orig : string) : err :=
  errorString ("time: invalid duration " +:+ quote orig).
Definition missingUnit (orig : string) : err :=
  errorString ("time: missing unit in duration " +:+ quote orig).
Definition unknownUnit (u orig : string) : err :=
  errorString ("time: unknown unit " +:+ quote u +:+ " in duration "
               +:+ quote orig).

(** One turn of the loop [for s != ""] up to the value [v] of the group it
    reads, for [s] not empty with first byte [ch]: the digits, the optional
    fraction, the unit. The result is an error or [v] and the rest of the
    text. *)
Definition group (orig : string) (ch : ascii) (s : string)
  : err + Z * string :=
  let c0 := Go.byte_of ch in
  (* The next character must be a digit or a dot *)
  if negb ((c0 =? 46) || isDigitByte c0) then inl (invalidDuration orig)
  else
    (* Consume the leading digits *)
    let pl := String.length s in
    match leadingInt s 0 with
    | None => inl (invalidDuration orig)
    | Some (v, s1) =>
        let pre := negb (Nat.eqb pl (String.length s1)) in
        (* Consume the optional fraction: a dot and digits *)
        let '(f, scale, s2, post) :=
          match s1 with
          | String dot s1' =>
              if Go.byte_of dot =? 46 then
                let pl := String.length s1' in
                let '(f, scale, s2) := leadingFraction s1' 0 1%float false in
                (f, scale, s2, negb (Nat.eqb pl (String.length s2)))
              else (0, 1%float, s1, false)
          | EmptyString => (0, 1%float, s1, false)
          end in
        if negb pre && negb post then
          (* no digits (e.g. ".s" or "-.s") *)
          inl (invalidDuration orig)
        else
          (* Consume unit. *)
          let '(u, s3) := splitUnit s2 in
          if String.eqb u "" then inl (missingUnit orig)
          else
            match unitMap u with
            | None => inl (unknownUnit u orig)
            | Some unit =>
                if v >? 2 ^ 63 / unit then
                  (* overflow *)
                  inl (invalidDuration orig)
                else
                  let v := Go.uint64_wrap (v * unit) in
                  if f >? 0 then
                    let v :=
                      Go.uint64_wrap
                        (v + uint64_of_float64
                               (float64_of_uint64 f
                                * (float64_of_uint64 unit / scale))%float) in
                    if v >? 2 ^ 63 then
                      (* overflow *)
                      inl (invalidDuration orig)
                    else inr (v, s3)
                  else inr (v, s3)
            end
    end.

(** The loop [for s != ""] with the accumulator [d]. Each turn consumes at
    least one byte, so [fuel] turns are enough for a text of [fuel] bytes;
    [None] is returned when the fuel runs out. *)
Fixpoint loop (fuel : nat) (orig s : string) (d : Z) : option (err + Z) :=
  match s with
  | EmptyString => Some (inr d)
  | String ch _ =>
      match fuel with
      | O => None
      | S fuel' =>
          match group orig ch s with
          | inl e => Some (inl e)
          | inr (v, s') =>
              let d := Go.uint64_wrap (d + v) in
              if d >? 2 ^ 63 then Some (inl (invalidDuration orig))
              else loop fuel' orig s' d
          end
      end
  end.

(** [ParseDuration(s)]. *)
Definition ParseDuration (s : string) : Z * error :=
  let orig := s in
  (* Consume the optional sign *)
  let '(neg, s) :=
    match s with
    | String ch rest =>
        let c := Go.byte_of ch in
        if (c =? 45) || (c =? 43) then (c =? 45, rest) else (false, s)
    | EmptyString => (false, s)
    end in
  (* Special case: if all that is left is "0", this is zero. *)
  if String.eqb s "0" then (0, nil)
  else if String.eqb s "" then (0, Some (invalidDuration orig))
  else
    match loop (String.length s) orig s 0 with
    | None => (0, nil) (* not reached: the fuel is the length of s *)
    | Some (inl e) => (0, Some e)
    | Some (inr d) =>
        if neg then (Go.int64_wrap (- Go.int64_wrap d), nil)
        else if d >? 2 ^ 63 - 1 then (0, Some (invalidDuration orig))
        else (Go.int64_wrap d, nil)
    end.

End time.

(** ** Package [os]: the environment *)

(** [os.LookupEnv(key)]: the value of the variable and whether it is set. *)
Definition LookupEnv (environ : gmap string string) (key : string)
  : string * bool :=
  match environ !! key with
  | Some value => (value, true)
  | None => ("", false)
  end.

(** ** Package [defenv]

    One definition per function of [defenv.go]. The environment read by
    [os.LookupEnv] is an argument, [environ]. ([String] comes last only
    because its name hides the constructor of [string] from then on.) *)

Module defenv.
Section defenv.

(** The width of [int] and [uint] on the platform. *)
Variable IntSize : Z.
(** [strconv.ParseFloat(s, 64)]. *)
Variable ParseFloat : string -> Go.float64 * error.
(** [time.ParseDuration(s)]. *)
Variable ParseDuration : string -> Z * error.

Variable environ : gmap string string.

(** The conversions [int(i64)] and [uint(i64)]. *)
Definition int (i64 : Z) : Z := Go.signed_wrap IntSize i64.
Definition uint (i64 : Z) : Z := i64 mod 2 ^ IntSize.

Definition Bool (name : string) (defaultValue : bool) : bool :=
  let '(strVal, ok) := LookupEnv environ name in
  if ok then
    match strconv.ParseBool strVal with
    | (res, None) => res
    | (_, Some _) => defaultValue
    end
  else defaultValue.

Definition BoolStrict (name : string) (defaultValue : bool) : bool * error :=
  let '(strVal, ok) := LookupEnv environ name in
  if ok then
    match strconv.ParseBool strVal with
    | (_, Some err) => (false, Some err)
    | (res, None) => (res, nil)
    end
  else (defaultValue, nil).

Definition Duration (name : string) (defaultValue : Z) : Z :=
  let '(strVal, ok) := LookupEnv environ name in
  if ok then
    match ParseDuration strVal with
    | (d, None) => d
    | (_, Some _) => defaultValue
    end
  else defaultValue.

Definition DurationStrict (name : string) (defaultValue : Z) : Z * error :=
  let '(strVal, ok) := LookupEnv environ name in
  if ok then
    match ParseDuration strVal with
    | (_, Some err) => (0, Some err)
    | (d, None) => (d, nil)
    end
  else (defaultValue, nil).

Definition Float64 (name : string) (defaultValue : Go.float64) : Go.float64 :=
  let '(strVal, ok) := LookupEnv environ name in
  if ok then
    match ParseFloat strVal with
    | (f, None) => f
    | (_, Some _) => defaultValue
    end
  else defaultValue.

Definition Float64Strict (name : string) (defaultValue : Go.float64)
  : Go.float64 * error :=
  let '(strVal, ok) := LookupEnv environ name in
  if ok then
    match ParseFloat strVal with
    | (_, Some err) => (0%float, Some err)
    | (f, None) => (f, nil)
    end
  else (defaultValue, nil).

Definition Int (name : string) (defaultValue : Z) : Z :=
  let '(strVal, ok) := LookupEnv environ name in
  if ok then
    match strconv.ParseInt IntSize strVal 0 with
    | (i64, None) => int i64
    | (_, Some _) => defaultValue
    end
  else defaultValue.

Definition IntStrict (name : string) (defaultValue : Z) : Z * error :=
  let '(strVal, ok) := LookupEnv environ name in
  if ok then
    match strconv.ParseInt IntSize strVal 0 with
    | (_, Some err) => (0, Some err)
    | (i64, None) => (int i64, nil)
    end
  else (defaultValue, nil).

Definition Int64 (name : string) (defaultValue : Z) : Z :=
  let '(strVal, ok) := LookupEnv environ name in
  if ok then
    match strconv.ParseInt IntSize strVal 64 with
    | (i64, None) => i64
    | (_, Some _) => defaultValue
    end
  else defaultValue.

Definition Int64Strict (name : string) (defaultValue : Z) : Z * error :=
  let '(strVal, ok) := LookupEnv environ name in
  if ok then
    match strconv.ParseInt IntSize strVal 64 with
    | (_, Some err) => (0, Some err)
    | (i64, None) => (i64, nil)
    end
  else (defaultValue, nil).

Definition Uint (name : string) (defaultValue : Z) : Z :=
  let '(strVal, ok) := LookupEnv environ name in
  if ok then
    match strconv.ParseUint IntSize strVal 0 with
    | (i64, None) => uint i64
    | (_, Some _) => defaultValue
    end
  else defaultValue.

Definition UintStrict (name : string) (defaultValue : Z) : Z * error :=
  let '(strVal, ok) := LookupEnv environ name in
  if ok then
    match strconv.ParseUint IntSize strVal 0 with
    | (_, Some err) => (0, Some err)
    | (i64, None) => (uint i64, nil)
    end
  else (defaultValue, nil).

Definition Uint64 (name : string) (defaultValue : Z) : Z :=
  let '(strVal, ok) := LookupEnv environ name in
  if ok then
    match strconv.ParseUint IntSize strVal 64 with
    | (i64, None) => i64
    | (_, Some _) => defaultValue
    end
  else defaultValue.

Definition Uint64Strict (name : string) (defaultValue : Z) : Z * error :=
  let '(strVal, ok) := LookupEnv environ name in
  if ok then
    match strconv.ParseUint IntSize strVal 64 with
    | (_, Some err) => (0, Some err)
    | (i64, None) => (i64, nil)
    end
  else (defaultValue, nil).

Definition String (name defaultValue : string) : string :=
  let '(val, ok) := LookupEnv environ name in
  if ok then val else defaultValue.

End defenv.
End defenv.

(** ** The library parameters on the repository's test vectors

    [strconv.Quote] and [strconv.ParseFloat] are parameters of the
    development. The instances below are used to evaluate the accessors on
    concrete inputs; they record what the repository's tests
    ([TestFloat64Strict], ...) expect of these functions on the texts the
    tests use. The duration parser of the concrete inputs is
    [time.ParseDuration] itself. *)

Module testdata.

(** The tests run on a platform with 64-bit [int]: [TestUint] expects
    ["12345678901234567890"] to parse. *)
Definition IntSize : Z := 64.

Definition hexdigit (n : Z) : ascii :=
  ascii_of_N (Z.to_N (if n <? 10 then 48 + n else 87 + n)).

(** [strconv.Quote] on ASCII text: the double quote and the backslash are
    backslashed, printable bytes are kept, the seven control characters with
    a short escape use it, every other byte is written as [\xNN] (which is
    also what [Quote] does with a byte that is not part of a valid UTF-8
    sequence; printable non-ASCII runes, which [Quote] keeps, are outside
    this instance). *)
Definition escapeByte (c : ascii) : string :=
  let b := Go.byte_of c in
  let bs := String (ascii_of_N 92) EmptyString in
  if (b =? 34) || (b =? 92) then bs +:+ String c EmptyString
  else if (32 <=? b) && (b <? 127) then String c EmptyString
  else if b =? 7 then bs +:+ "a"
  else if b =? 8 then bs +:+ "b"
  else if b =? 12 then bs +:+ "f"
  else if b =? 10 then bs +:+ "n"
  else if b =? 13 then bs +:+ "r"
  else if b =? 9 then bs +:+ "t"
  else if b =? 11 then bs +:+ "v"
  else bs +:+ "x" +:+ String (hexdigit (b / 16))
                       (String (hexdigit (b mod 16)) EmptyString).

Fixpoint escape (s : string) : string :=
  match s with
  | EmptyString => EmptyString
  | String c rest => escapeByte c +:+ escape rest
  end.

Definition Quote (s : string) : string :=
  let dq := String (ascii_of_N 34) EmptyString in
  dq +:+ escape s +:+ dq.

(** [strconv.ParseFloat(s, 64)] on the texts of [TestFloat64] and
    [TestFloat64Strict]: four texts parse, and the tests expect a syntax
    error for the other texts they use (the empty text and [bad]); the last
    branch gives that error. [f3_14] and [f321_123] are the binary64 values
    nearest to 3.14 and 321.123. *)
Definition f3_14 : Go.float64 := 0x1.91eb851eb851fp+1%float.
Definition f321_123 : Go.float64 := 0x1.411f7ced91687p+8%float.

Definition ParseFloat (s : string) : Go.float64 * error :=
  if String.eqb s "3.14" then (f3_14, nil)
  else if String.eqb s "-321.123" then ((- f321_123)%float, nil)
  else if String.eqb s "30" then (30%float, nil)
  else if String.eqb s "0" then (0%float, nil)
  else (0%float, Some (strconv.syntaxError "ParseFloat" s)).

Definition Millisecond : Z := 1000000.
Definition Second : Z := 1000 * Millisecond.
Definition Minute : Z := 60 * Second.
Definition Hour : Z := 60 * Minute.

(** The duration parser used at concrete inputs: [time.ParseDuration]. *)
Definition ParseDuration : string -> Z * error := time.ParseDuration.

(** The environment of one test case: [os.Setenv("VALUE", envValue)]. *)
Definition setenv (envValue : string) : gmap string string :=
  {[ "VALUE" := envValue ]}.

(** An environment in which [VALUE] is not set (other variables are). *)
Definition unset : gmap string string :=
  {[ "PATH" := "/usr/bin"; "HOME" := "/root" ]}.

(** The defaults of the tests: [3 * time.Second] and [1.2]. *)
Definition d3s : Z := 3 * Second.
Definition f1_2 : Go.float64 := 0x1.3333333333333p+0%float.

(** The double quote, and a text between double quotes. *)
Definition dq : string := String (ascii_of_N 34) EmptyString.
Definition quoted (s : string) : string := dq +:+ s +:+ dq.

End testdata.

(** ** Vocabulary of the specification *)

(** Whether [sub] occurs in [s]. *)
Fixpoint contains (sub s : string) : bool :=
  String.prefix sub s ||
  match s with
  | EmptyString => false
  | String _ rest => contains sub rest
  end.

(** The last byte of a text. *)
Fixpoint lastByte (s : string) : option ascii :=
  match s with
  | EmptyString => None
  | String c EmptyString => Some c
  | String _ rest => lastByte rest
  end.

(** ASCII case folding, for "case-insensitive forms". *)
Definition foldCase (c : ascii) : ascii :=
  let b := Go.byte_of c in
  if (65 <=? b) && (b <=? 90) then ascii_of_N (Z.to_N (b + 32)) else c.

Fixpoint toLower (s : string) : string :=
  match s with
  | EmptyString => EmptyString
  | String c rest => String (foldCase c) (toLower rest)
  end.

(** [s] and [t] are equal up to the case of their letters. *)
Definition equalFold (s t : string) : bool := String.eqb (toLower s) (toLower t).

(** Base-10 integer text: an optional sign and one or more decimal digits. *)
Definition isDigit (c : ascii) : bool :=
  (48 <=? Go.byte_of c) && (Go.byte_of c <=? 57).

Fixpoint allDigits (s : string) : bool :=
  match s with
  | EmptyString => true
  | String c rest => isDigit c && allDigits rest
  end.

(** The number written by the digits [s], continuing from [acc]. *)
Fixpoint digitsValue (acc : Z) (s : string) : Z :=
  match s with
  | EmptyString => acc
  | String c rest => digitsValue (acc * 10 + (Go.byte_of c - 48)) rest
  end.

Definition isIntText (s : string) : bool :=
  match s with
  | EmptyString => false
  | String c rest =>
      if Ascii.eqb c "+" || Ascii.eqb c "-" then
        negb (String.eqb rest "") && allDigits rest
      else allDigits s
  end.

Definition intTextValue (s : string) : Z :=
  match s with
  | EmptyString => 0
  | String c rest =>
      if Ascii.eqb c "+" then digitsValue 0 rest
      else if Ascii.eqb c "-" then - digitsValue 0 rest
      else digitsValue 0 s
  end.

(** The range of a signed integer of [w] bits. *)
Definition inSignedRange (w x : Z) : Prop := - 2 ^ (w - 1) <= x <= 2 ^ (w - 1) - 1.

(** ** Auxiliary definitions for the proofs *)

(** The width a call parses for: [bitSize], or [IntSize] when it is 0. *)
Definition width (IntSize bitSize : Z) : Z :=
  if bitSize =? 0 then IntSize else bitSize.

(** [ParseInt] after its sign has been picked off, for width [w]: [un] and
    [err] are the results of [ParseUint] on the rest of the text. *)
Definition ParseInt_finish (w : Z) (s0 : string) (neg : bool) (un : Z)
    (err : error) : Z * error :=
  match err with
  | Some (NumError _ _ ErrSyntax) => (0, Some (NumError "ParseInt" s0 ErrSyntax))
  | Some (NumError _ _ (ErrBitSize b)) =>
      (0, Some (NumError "ParseInt" s0 (ErrBitSize b)))
  | Some (errorString m) => (0, Some (errorString m))
  | _ =>
      if negb neg && (un >=? 2 ^ (w - 1)) then
        (Go.int64_wrap (2 ^ (w - 1) - 1), Some (strconv.rangeError "ParseInt" s0))
      else if neg && (un >? 2 ^ (w - 1)) then
        (Go.int64_wrap (- Go.int64_wrap (2 ^ (w - 1))),
         Some (strconv.rangeError "ParseInt" s0))
      else
        (if neg then Go.int64_wrap (- Go.int64_wrap un) else Go.int64_wrap un, nil)
  end.

(** What an ordinary accessor makes of a value and an error: the value when
    the error is nil, the default otherwise. *)
Definition orDefault {A : Type} (defaultValue : A) (r : A * error) : A :=
  match r with
  | (v, None) => v
  | (_, Some _) => defaultValue
  end.

(** The range of an unsigned integer of [w] bits. *)
Definition inUnsignedRange (w x : Z) : Prop := 0 <= x <= 2 ^ w - 1.

(** Texts that [time.quote] leaves as they are: every byte is an ASCII byte
    from the blank on, other than the double quote and the backslash. *)
Definition plainByte (ch : ascii) : bool :=
  let c := Go.byte_of ch in
  (32 <=? c) && (c <? 128) && negb ((c =? 34) || (c =? 92)).

Fixpoint plainText (s : string) : bool :=
  match s with
  | EmptyString => true
  | String ch rest => plainByte ch && plainText rest
  end.

(** The three errors of [time.ParseDuration] for the text [orig]. *)
Definition isDurationError (orig : string) (e : err) : Prop :=
  e = time.invalidDuration orig
  \/ e = time.missingUnit orig
  \/ exists u, e = time.unknownUnit u orig.

(** Decidable form of [inSignedRange]. *)
Definition inSignedRangeb (w x : Z) : bool :=
  (- 2 ^ (w - 1) <=? x) && (x <=? 2 ^ (w - 1) - 1).

(** The value [ParseInt] returns beside a range error: the nearest end of
    the range. *)
Definition rangeEnd (w : Z) (neg : bool) : Z :=
  if neg then - 2 ^ (w - 1) else 2 ^ (w - 1) - 1.

(** * Properties *)

(** ** Lookup *)

Lemma LookupEnv_present (environ : gmap string string) name value :
  environ !! name = Some value -> LookupEnv environ name = (value, true).
Proof. intros H. unfold LookupEnv. now rewrite H. Qed.

Lemma LookupEnv_absent (environ : gmap string string) name :
  environ !! name = None -> LookupEnv environ name = ("", false).
Proof. intros H. unfold LookupEnv. now rewrite H. Qed.

(** The lookup reads one entry of the table. *)
Lemma LookupEnv_ext (e1 e2 : gmap string string) name :
  e1 !! name = e2 !! name -> LookupEnv e1 name = LookupEnv e2 name.
Proof. intros H. unfold LookupEnv. now rewrite H. Qed.

Ltac accessors :=
  unfold defenv.Bool, defenv.BoolStrict, defenv.Duration, defenv.DurationStrict,
    defenv.Float64, defenv.Float64Strict, defenv.Int, defenv.IntStrict,
    defenv.Int64, defenv.Int64Strict, defenv.Uint, defenv.UintStrict,
    defenv.Uint64, defenv.Uint64Strict, defenv.String.

Section generic.

Variable IntSize : Z.
Variable ParseFloat : string -> Go.float64 * error.
Variable ParseDuration : string -> Z * error.

(** C1. When the variable is not set, every ordinary accessor returns the
    default and every strict accessor returns the default with a nil error,
    whatever the default: absence is never an error. *)
Theorem absent_returns_default (environ : gmap string string) (name : string) :
  environ !! name = None ->
  (forall d, defenv.Bool environ name d = d
             /\ defenv.BoolStrict environ name d = (d, nil)) /\
  (forall d, defenv.Duration ParseDuration environ name d = d
             /\ defenv.DurationStrict ParseDuration environ name d = (d, nil)) /\
  (forall d, defenv.Float64 ParseFloat environ name d = d
             /\ defenv.Float64Strict ParseFloat environ name d = (d, nil)) /\
  (forall d, defenv.Int IntSize environ name d = d
             /\ defenv.IntStrict IntSize environ name d = (d, nil)) /\
  (forall d, defenv.Int64 IntSize environ name d = d
             /\ defenv.Int64Strict IntSize environ name d = (d, nil)) /\
  (forall d, defenv.Uint IntSize environ name d = d
             /\ defenv.UintStrict IntSize environ name d = (d, nil)) /\
  (forall d, defenv.Uint64 IntSize environ name d = d
             /\ defenv.Uint64Strict IntSize environ name d = (d, nil)) /\
  (forall d, defenv.String environ name d = d).
Proof.
  intros Habs. accessors. rewrite (LookupEnv_absent _ _ Habs).
  repeat split.
Qed.

(** C2. When the variable is set to a text that the parser of the type
    rejects (with whatever error: syntax or range), the ordinary accessor
    returns the default. Its result type has no error component, and the
    function is total: nothing is raised. *)
Theorem ordinary_absorbs_parse_failure (environ : gmap string string)
    (name strVal : string) :
  environ !! name = Some strVal ->
  (forall d v e, strconv.ParseBool strVal = (v, Some e) ->
                 defenv.Bool environ name d = d) /\
  (forall d v e, ParseDuration strVal = (v, Some e) ->
                 defenv.Duration ParseDuration environ name d = d) /\
  (forall d v e, ParseFloat strVal = (v, Some e) ->
                 defenv.Float64 ParseFloat environ name d = d) /\
  (forall d v e, strconv.ParseInt IntSize strVal 0 = (v, Some e) ->
                 defenv.Int IntSize environ name d = d) /\
  (forall d v e, strconv.ParseInt IntSize strVal 64 = (v, Some e) ->
                 defenv.Int64 IntSize environ name d = d) /\
  (forall d v e, strconv.ParseUint IntSize strVal 0 = (v, Some e) ->
                 defenv.Uint IntSize environ name d = d) /\
  (forall d v e, strconv.ParseUint IntSize strVal 64 = (v, Some e) ->
                 defenv.Uint64 IntSize environ name d = d).
Proof.
  intros Hset. accessors. rewrite (LookupEnv_present _ _ _ Hset).
  repeat split; intros d v e Hparse; now rewrite Hparse.
Qed.

(** C10. An accessor reads only the entry of its own key: on two
    environments with the same entry for [name] (both unset, or both set to
    the same text) each accessor returns the same result. *)
Theorem result_depends_on_own_entry (e1 e2 : gmap string string)
    (name : string) :
  e1 !! name = e2 !! name ->
  (forall d, defenv.Bool e1 name d = defenv.Bool e2 name d) /\
  (forall d, defenv.BoolStrict e1 name d = defenv.BoolStrict e2 name d) /\
  (forall d, defenv.Duration ParseDuration e1 name d
             = defenv.Duration ParseDuration e2 name d) /\
  (forall d, defenv.DurationStrict ParseDuration e1 name d
             = defenv.DurationStrict ParseDuration e2 name d) /\
  (forall d, defenv.Float64 ParseFloat e1 name d
             = defenv.Float64 ParseFloat e2 name d) /\
  (forall d, defenv.Float64Strict ParseFloat e1 name d
             = defenv.Float64Strict ParseFloat e2 name d) /\
  (forall d, defenv.Int IntSize e1 name d = defenv.Int IntSize e2 name d) /\
  (forall d, defenv.IntStrict IntSize e1 name d
             = defenv.IntStrict IntSize e2 name d) /\
  (forall d, defenv.Int64 IntSize e1 name d = defenv.Int64 IntSize e2 name d) /\
  (forall d, defenv.Int64Strict IntSize e1 name d
             = defenv.Int64Strict IntSize e2 name d) /\
  (forall d, defenv.String e1 name d = defenv.String e2 name d) /\
  (forall d, defenv.Uint IntSize e1 name d = defenv.Uint IntSize e2 name d) /\
  (forall d, defenv.UintStrict IntSize e1 name d
             = defenv.UintStrict IntSize e2 name d) /\
  (forall d, defenv.Uint64 IntSize e1 name d = defenv.Uint64 IntSize e2 name d) /\
  (forall d, defenv.Uint64Strict IntSize e1 name d
             = defenv.Uint64Strict IntSize e2 name d).
Proof.
  intros Hsame. accessors. rewrite (LookupEnv_ext _ _ _ Hsame).
  repeat split.
Qed.

End generic.

(** C5. [String] returns the value of a variable that is set as it is, the
    empty text included, and the default exactly when the variable is not set:
    its result is the entry of the table, with the default for a missing
    entry. *)
Theorem String_returns_value_verbatim (environ : gmap string string)
    (name defaultValue : string) :
  defenv.String environ name defaultValue
    = match environ !! name with
      | Some value => value
      | None => defaultValue
      end
  /\ defenv.String (<[name := ""]> environ) name defaultValue = "".
Proof.
  unfold defenv.String, LookupEnv. rewrite lookup_insert_eq.
  split; [ destruct (environ !! name); reflexivity | reflexivity ].
Qed.

(** ** Machine integers *)

Lemma uint64_wrap_small x : 0 <= x < 2 ^ 64 -> Go.uint64_wrap x = x.
Proof. intros H. unfold Go.uint64_wrap. now apply Z.mod_small. Qed.

Lemma uint64_wrap_range x : 0 <= Go.uint64_wrap x < 2 ^ 64.
Proof. unfold Go.uint64_wrap. apply Z.mod_pos_bound. lia. Qed.

Lemma signed_wrap_small w x :
  0 < w -> - 2 ^ (w - 1) <= x <= 2 ^ (w - 1) - 1 -> Go.signed_wrap w x = x.
Proof.
  intros Hw Hx. unfold Go.signed_wrap.
  assert (Hpow : 2 ^ w = 2 * 2 ^ (w - 1)).
  { replace w with (Z.succ (w - 1)) at 1 by lia. apply Z.pow_succ_r. lia. }
  assert (Hpos : 0 < 2 ^ (w - 1)) by (apply Z.pow_pos_nonneg; lia).
  destruct (Z_lt_le_dec x 0) as [Hneg | Hnn].
  - assert (Hm : x mod 2 ^ w = x + 2 ^ w).
    { symmetry. apply (Z.mod_unique_pos _ _ (-1)); lia. }
    rewrite Hm. destruct (Z.ltb_spec (x + 2 ^ w) (2 ^ (w - 1))); lia.
  - rewrite Z.mod_small by lia.
    destruct (Z.ltb_spec x (2 ^ (w - 1))); lia.
Qed.

Lemma signed_wrap_range w x : 0 < w -> inSignedRange w (Go.signed_wrap w x).
Proof.
  intros Hw. unfold inSignedRange, Go.signed_wrap.
  assert (Hpow : 2 ^ w = 2 * 2 ^ (w - 1)).
  { replace w with (Z.succ (w - 1)) at 1 by lia. apply Z.pow_succ_r. lia. }
  assert (Hpos : 0 < 2 ^ (w - 1)) by (apply Z.pow_pos_nonneg; lia).
  pose proof (Z.mod_pos_bound x (2 ^ w)) as Hb.
  destruct (Z.ltb_spec (x mod 2 ^ w) (2 ^ (w - 1))); lia.
Qed.

(** [maxVal := uint64(1)<<uint(bitSize) - 1] for the two widths in use; at 64
    the shift gives 0 and the subtraction wraps to [maxUint64]. *)
Lemma maxVal_width w :
  w = 32 \/ w = 64 ->
  Go.uint64_wrap (Go.uint64_wrap (Z.shiftl 1 w) - 1) = 2 ^ w - 1.
Proof. intros [-> | ->]; reflexivity. Qed.

Lemma cutoff_width w :
  w = 32 \/ w = 64 -> Go.uint64_wrap (Z.shiftl 1 (w - 1)) = 2 ^ (w - 1).
Proof. intros [-> | ->]; reflexivity. Qed.

(** ** The digit loop of [strconv.ParseUint] *)

Lemma isDigit_digitVal c :
  isDigit c = true ->
  strconv.digitVal (Go.byte_of c) = Some (Go.byte_of c - 48)
  /\ 0 <= Go.byte_of c - 48 <= 9.
Proof.
  unfold isDigit, strconv.digitVal. intros H. rewrite H.
  apply andb_true_iff in H as [H1 H2].
  apply Z.leb_le in H1, H2. split; [reflexivity | lia].
Qed.

(** The three ways the loop ends: a value within [maxVal], a syntax error
    with value 0, or a range error with value [maxVal]. *)
Lemma ParseUint_loop_cases s0 maxVal s :
  forall n v e,
    0 <= n <= maxVal ->
    strconv.ParseUint_loop s0 maxVal s n = (v, e) ->
    (e = None /\ 0 <= v <= maxVal)
    \/ (e = Some (strconv.syntaxError "ParseUint" s0) /\ v = 0)
    \/ (e = Some (strconv.rangeError "ParseUint" s0) /\ v = maxVal).
Proof.
  induction s as [| ch rest IH]; intros n v e Hn Hrun; simpl in Hrun.
  - injection Hrun as <- <-. left. now split.
  - destruct (strconv.digitVal (Go.byte_of ch)) as [d |].
    2: { injection Hrun as <- <-. right; left. now split. }
    destruct (d >=? strconv.base).
    { injection Hrun as <- <-. right; left. now split. }
    destruct (n >=? strconv.cutoff).
    { injection Hrun as <- <-. right; right. now split. }
    set (n1 := Go.uint64_wrap (Go.uint64_wrap (n * strconv.base) + d)) in *.
    destruct (n1 <? Go.uint64_wrap (n * strconv.base)) eqn:Hlt; simpl in Hrun.
    { injection Hrun as <- <-. right; right. now split. }
    destruct (n1 >? maxVal) eqn:Hgt.
    { injection Hrun as <- <-. right; right. now split. }
    apply (IH n1); [| exact Hrun].
    rewrite Z.gtb_ltb in Hgt. apply Z.ltb_ge in Hgt.
    pose proof (uint64_wrap_range (Go.uint64_wrap (n * strconv.base) + d)).
    fold n1 in H. lia.
Qed.

Lemma digitsValue_ge s : forall n, 0 <= n -> allDigits s = true -> n <= digitsValue n s.
Proof.
  induction s as [| c rest IH]; intros n Hn Hall; simpl in *; [lia |].
  apply andb_true_iff in Hall as [Hc Hrest].
  destruct (isDigit_digitVal c Hc) as [_ Hd].
  etransitivity; [| apply IH; [lia | exact Hrest]]. lia.
Qed.

(** On a text of decimal digits the loop computes the number written, unless
    that number exceeds [maxVal]: then it reports a range error. *)
Lemma ParseUint_loop_digits s0 maxVal s :
  forall n,
    0 <= n <= maxVal -> maxVal <= Go.maxUint64 -> allDigits s = true ->
    strconv.ParseUint_loop s0 maxVal s n
    = if digitsValue n s <=? maxVal then (digitsValue n s, nil)
      else (maxVal, Some (strconv.rangeError "ParseUint" s0)).
Proof.
  unfold Go.maxUint64.
  induction s as [| c rest IH]; intros n Hn Hmax Hall; simpl in *.
  - destruct (Z.leb_spec n maxVal); [reflexivity | lia].
  - apply andb_true_iff in Hall as [Hc Hrest].
    destruct (isDigit_digitVal c Hc) as [-> Hd].
    set (d := Go.byte_of c - 48) in *.
    assert (Hmono : n * 10 + d <= digitsValue (n * 10 + d) rest)
      by (apply digitsValue_ge; [lia | exact Hrest]).
    unfold strconv.base, strconv.cutoff, Go.maxUint64.
    change ((2 ^ 64 - 1) / 10 + 1) with 1844674407370955162.
    destruct (Z.geb_spec d 10) as [| _]; [lia |].
    destruct (Z.geb_spec n 1844674407370955162) as [Hcut | Hcut].
    { destruct (Z.leb_spec (digitsValue (n * 10 + d) rest) maxVal); [lia | reflexivity]. }
    rewrite (uint64_wrap_small (n * 10)) by lia.
    destruct (Z_lt_le_dec (n * 10 + d) (2 ^ 64)) as [Hfit | Hover].
    + rewrite (uint64_wrap_small (n * 10 + d)) by lia.
      destruct (Z.ltb_spec (n * 10 + d) (n * 10)); [lia |]. simpl.
      rewrite Z.gtb_ltb.
      destruct (Z.ltb_spec maxVal (n * 10 + d)) as [Hbig | Hok].
      * destruct (Z.leb_spec (digitsValue (n * 10 + d) rest) maxVal); [lia | reflexivity].
      * apply IH; [lia | lia | exact Hrest].
    + assert (Hw : Go.uint64_wrap (n * 10 + d) = n * 10 + d - 2 ^ 64).
      { unfold Go.uint64_wrap. symmetry. apply (Z.mod_unique_pos _ _ 1); lia. }
      rewrite Hw.
      destruct (Z.ltb_spec (n * 10 + d - 2 ^ 64) (n * 10)); [| lia]. simpl.
      destruct (Z.leb_spec (digitsValue (n * 10 + d) rest) maxVal); [lia | reflexivity].
Qed.

(** ** [strconv.ParseUint] and [strconv.ParseInt] *)

Section strconv_facts.

Variable IntSize : Z.
(** Go's [int] and [uint] are 32 or 64 bits wide. *)
Hypothesis IntSize_spec : IntSize = 32 \/ IntSize = 64.

Variable bitSize : Z.
(** The accessors pass 0 or 64. *)
Hypothesis bitSize_spec : bitSize = 0 \/ bitSize = 64.

Let w := width IntSize bitSize.

Lemma width_spec : w = 32 \/ w = 64.
Proof.
  unfold w, width. destruct bitSize_spec as [-> | ->]; simpl; [assumption | now right].
Qed.

Lemma ParseUint_nonempty c rest :
  strconv.ParseUint IntSize (String c rest) bitSize
  = strconv.ParseUint_loop (String c rest) (2 ^ w - 1) (String c rest) 0.
Proof.
  unfold strconv.ParseUint. cbn [String.eqb].
  assert (Hchk : (bitSize <? 0) || (bitSize >? 64) = false)
    by (destruct bitSize_spec as [-> | ->]; reflexivity).
  rewrite Hchk. fold (width IntSize bitSize). fold w.
  now rewrite (maxVal_width w width_spec).
Qed.

Lemma pow_w_bounds : 2 ^ 31 <= 2 ^ (w - 1) <= 2 ^ 63 /\ 2 ^ w = 2 * 2 ^ (w - 1).
Proof. destruct width_spec as [-> | ->]; simpl; lia. Qed.

(** The results of [ParseUint]: a value that fits the width, a syntax
    error, or a range error with the largest value of the width. *)
Lemma ParseUint_cases s v e :
  strconv.ParseUint IntSize s bitSize = (v, e) ->
  (e = None /\ 0 <= v <= 2 ^ w - 1)
  \/ (e = Some (NumError "ParseUint" s ErrSyntax) /\ v = 0)
  \/ (e = Some (NumError "ParseUint" s ErrRange) /\ v = 2 ^ w - 1).
Proof.
  destruct s as [| c rest].
  - unfold strconv.ParseUint. simpl. intros [= <- <-]. right; left. now split.
  - rewrite ParseUint_nonempty. apply ParseUint_loop_cases.
    pose proof pow_w_bounds. lia.
Qed.

Lemma ParseUint_digits s :
  s <> "" -> allDigits s = true ->
  strconv.ParseUint IntSize s bitSize
  = if digitsValue 0 s <=? 2 ^ w - 1 then (digitsValue 0 s, nil)
    else (2 ^ w - 1, Some (NumError "ParseUint" s ErrRange)).
Proof.
  intros Hne Hall. destruct s as [| c rest]; [congruence |].
  rewrite ParseUint_nonempty.
  apply ParseUint_loop_digits; [| | exact Hall];
    unfold Go.maxUint64; pose proof pow_w_bounds; lia.
Qed.

(** A leading minus sign is a syntax error for [ParseUint], whatever
    follows it. *)
Lemma ParseUint_minus rest :
  strconv.ParseUint IntSize (String "-" rest) bitSize
  = (0, Some (NumError "ParseUint" (String "-" rest) ErrSyntax)).
Proof. rewrite ParseUint_nonempty. reflexivity. Qed.

Lemma ParseInt_unfold c rest :
  strconv.ParseInt IntSize (String c rest) bitSize
  = let neg := negb (Ascii.eqb c "+") && Ascii.eqb c "-" in
    let s := if Ascii.eqb c "+" || Ascii.eqb c "-" then rest else String c rest in
    ParseInt_finish w (String c rest) neg
      (fst (strconv.ParseUint IntSize s bitSize))
      (snd (strconv.ParseUint IntSize s bitSize)).
Proof.
  unfold strconv.ParseInt, ParseInt_finish.
  fold (width IntSize bitSize). fold w. rewrite (cutoff_width w width_spec).
  destruct (Ascii.eqb c "+"), (Ascii.eqb c "-"); simpl;
    match goal with
    | |- context [strconv.ParseUint IntSize ?s bitSize] =>
        destruct (strconv.ParseUint IntSize s bitSize) as [un [[f nm [| | b] | m] |]]
    end; reflexivity.
Qed.

Lemma inSignedRangeb_spec w' x : inSignedRangeb w' x = true <-> inSignedRange w' x.
Proof.
  unfold inSignedRangeb, inSignedRange.
  rewrite andb_true_iff, !Z.leb_le. reflexivity.
Qed.

(** The three inputs [ParseInt_finish] can get from [ParseUint]. *)
Lemma ParseInt_finish_value s0 neg un :
  0 <= un <= 2 ^ w - 1 ->
  ParseInt_finish w s0 neg un None
  = let v := if neg then - un else un in
    if inSignedRangeb w v then (v, nil)
    else (rangeEnd w neg, Some (NumError "ParseInt" s0 ErrRange)).
Proof.
  intros Hun. pose proof pow_w_bounds as [Hp Hpw].
  unfold ParseInt_finish, inSignedRangeb, rangeEnd, strconv.rangeError.
  destruct neg; cbn [negb andb].
  - rewrite Z.gtb_ltb.
    destruct (Z.ltb_spec (2 ^ (w - 1)) un) as [Hbig | Hok].
    + destruct (Z.leb_spec (- 2 ^ (w - 1)) (- un)); [lia |]. cbn [andb].
      f_equal. destruct width_spec as [-> | ->]; reflexivity.
    + destruct (Z.leb_spec (- 2 ^ (w - 1)) (- un)); [| lia].
      destruct (Z.leb_spec (- un) (2 ^ (w - 1) - 1)); [| lia]. cbn [andb].
      f_equal.
      destruct (Z.eq_dec un (2 ^ 63)) as [-> | Hne]; [reflexivity |].
      unfold Go.int64_wrap.
      rewrite (signed_wrap_small 64 un) by (simpl; lia).
      apply signed_wrap_small; simpl; lia.
  - destruct (Z.geb_spec un (2 ^ (w - 1))) as [Hbig | Hok].
    + destruct (Z.leb_spec un (2 ^ (w - 1) - 1)); [lia |].
      rewrite andb_false_r.
      f_equal. destruct width_spec as [-> | ->]; reflexivity.
    + destruct (Z.leb_spec (- 2 ^ (w - 1)) un); [| lia].
      destruct (Z.leb_spec un (2 ^ (w - 1) - 1)); [| lia]. cbn [andb].
      f_equal. unfold Go.int64_wrap. apply signed_wrap_small; simpl; lia.
Qed.

Lemma ParseInt_finish_range s0 neg f nm :
  ParseInt_finish w s0 neg (2 ^ w - 1) (Some (NumError f nm ErrRange))
  = (rangeEnd w neg, Some (NumError "ParseInt" s0 ErrRange)).
Proof.
  pose proof pow_w_bounds as [Hp Hpw].
  unfold ParseInt_finish, rangeEnd, strconv.rangeError.
  destruct neg; cbn [negb andb].
  - rewrite Z.gtb_ltb.
    destruct (Z.ltb_spec (2 ^ (w - 1)) (2 ^ w - 1)); [| lia].
    f_equal. destruct width_spec as [-> | ->]; reflexivity.
  - destruct (Z.geb_spec (2 ^ w - 1) (2 ^ (w - 1))); [| lia].
    f_equal. destruct width_spec as [-> | ->]; reflexivity.
Qed.

Lemma ParseInt_finish_cases s0 s neg un err :
  strconv.ParseUint IntSize s bitSize = (un, err) ->
  forall v e, ParseInt_finish w s0 neg un err = (v, e) ->
  (e = None /\ inSignedRange w v)
  \/ (e = Some (NumError "ParseInt" s0 ErrSyntax) /\ v = 0)
  \/ (e = Some (NumError "ParseInt" s0 ErrRange) /\ v = rangeEnd w neg).
Proof.
  intros HU v e Hfin.
  apply ParseUint_cases in HU as [[-> Hun] | [[-> ->] | [-> ->]]].
  - rewrite ParseInt_finish_value in Hfin by exact Hun. cbv zeta in Hfin.
    destruct (inSignedRangeb w (if neg then - un else un)) eqn:Hin;
      injection Hfin as <- <-.
    + left. split; [reflexivity |]. now apply inSignedRangeb_spec.
    + right; right. now split.
  - injection Hfin as <- <-. right; left. now split.
  - rewrite ParseInt_finish_range in Hfin. injection Hfin as <- <-.
    right; right. now split.
Qed.

(** The results of [ParseInt]: a value within the signed range of the
    width, a syntax error, or a range error. *)
Lemma ParseInt_cases s v e :
  strconv.ParseInt IntSize s bitSize = (v, e) ->
  (e = None /\ inSignedRange w v)
  \/ (e = Some (NumError "ParseInt" s ErrSyntax) /\ v = 0)
  \/ (e = Some (NumError "ParseInt" s ErrRange)).
Proof.
  destruct s as [| c rest].
  - simpl. intros [= <- <-]. right; left. now split.
  - rewrite ParseInt_unfold. cbv zeta. intros Hfin.
    eapply ParseInt_finish_cases in Hfin; [| apply surjective_pairing].
    destruct Hfin as [[-> Hr] | [[-> ->] | [-> _]]]; auto.
Qed.

Lemma isDigit_not_sign c :
  isDigit c = true -> Ascii.eqb c "+" = false /\ Ascii.eqb c "-" = false.
Proof.
  intros H. split.
  - destruct (Ascii.eqb_spec c "+") as [-> |]; [discriminate H | reflexivity].
  - destruct (Ascii.eqb_spec c "-") as [-> |]; [discriminate H | reflexivity].
Qed.

Lemma ParseInt_finish_digits s0 neg ds :
  ds <> "" -> allDigits ds = true ->
  ParseInt_finish w s0 neg
    (fst (strconv.ParseUint IntSize ds bitSize))
    (snd (strconv.ParseUint IntSize ds bitSize))
  = let v := if neg then - digitsValue 0 ds else digitsValue 0 ds in
    if inSignedRangeb w v then (v, nil)
    else (rangeEnd w neg, Some (NumError "ParseInt" s0 ErrRange)).
Proof.
  intros Hne Hall. rewrite (ParseUint_digits ds Hne Hall).
  pose proof (digitsValue_ge ds 0 ltac:(lia) Hall) as Hpos.
  pose proof pow_w_bounds as [Hp Hpw].
  destruct (Z.leb_spec (digitsValue 0 ds) (2 ^ w - 1)) as [Hfit | Hover];
    cbn [fst snd].
  - apply ParseInt_finish_value. lia.
  - rewrite ParseInt_finish_range. cbv zeta.
    assert (Hout : inSignedRangeb w
                     (if neg then - digitsValue 0 ds else digitsValue 0 ds) = false).
    { apply not_true_is_false. rewrite inSignedRangeb_spec.
      unfold inSignedRange. destruct neg; lia. }
    now rewrite Hout.
Qed.

(** [ParseInt] on integer text: the number written when it fits the width,
    and a range error otherwise. *)
Lemma ParseInt_intText s :
  isIntText s = true ->
  (inSignedRange w (intTextValue s) ->
   strconv.ParseInt IntSize s bitSize = (intTextValue s, nil))
  /\ (~ inSignedRange w (intTextValue s) ->
      exists v, strconv.ParseInt IntSize s bitSize
                = (v, Some (NumError "ParseInt" s ErrRange))).
Proof.
  destruct s as [| c rest]; [discriminate |].
  intros Htext. rewrite ParseInt_unfold. cbv zeta.
  unfold isIntText, intTextValue in *.
  destruct (Ascii.eqb c "+") eqn:Hplus; [| destruct (Ascii.eqb c "-") eqn:Hminus];
    cbn [orb negb andb] in *.
  1, 2: apply andb_true_iff in Htext as [Hne Hall];
        apply negb_true_iff in Hne; apply String.eqb_neq in Hne.
  3: assert (Hne : String c rest <> "") by discriminate;
     pose proof Htext as Hall.
  all: rewrite (ParseInt_finish_digits _ _ _ Hne Hall); cbv zeta;
       split; intros Hr.
  all: try (apply inSignedRangeb_spec in Hr; now rewrite Hr).
  all: rewrite <- inSignedRangeb_spec in Hr; apply not_true_is_false in Hr;
       rewrite Hr; eauto.
Qed.

End strconv_facts.

(** ** Error messages *)

Lemma lastByte_app a b : b <> "" -> lastByte (a +:+ b) = lastByte b.
Proof.
  intros Hb. induction a as [| c a IH]; [reflexivity |].
  change (String c a +:+ b) with (String c (a +:+ b)).
  destruct (a +:+ b) eqn:Happ; [| exact IH].
  destruct a; [| discriminate]. change ("" +:+ b) with b in Happ. congruence.
Qed.

Lemma app_nonempty a b : b <> "" -> a +:+ b <> "".
Proof.
  intros Hb Happ. destruct a; [| discriminate].
  change ("" +:+ b) with b in Happ. congruence.
Qed.

(** The message of a [NumError] ends with the text of its [Err] value; the
    texts of [ErrSyntax] and [ErrRange] end in different letters, so no
    message of one kind is a message of the other. *)
Lemma NumError_message_kind Quote f1 n1 f2 n2 :
  Error Quote (NumError f1 n1 ErrSyntax) <> Error Quote (NumError f2 n2 ErrRange).
Proof.
  intros Heq. apply (f_equal lastByte) in Heq.
  unfold Error, strconv.NumError_Error, strconv.numErr_Error in Heq.
  repeat rewrite lastByte_app in Heq
    by (repeat apply app_nonempty; discriminate).
  discriminate Heq.
Qed.

(** ** The claims about the integer and boolean accessors *)

Section accessors.

Variable IntSize : Z.
Variable Quote : string -> string.
Variable ParseFloat : string -> Go.float64 * error.
Variable ParseDuration : string -> Z * error.

(** C4. When the variable is set to a text the parser of the type accepts,
    the ordinary and the strict accessor return the same value, the one the
    parser produced, and the strict accessor returns a nil error. For [int]
    and [uint] the value goes through the conversion [int(i64)] or
    [uint(i64)], which leaves it unchanged on a 32- or 64-bit platform. *)
Theorem parsed_value_from_both_forms (environ : gmap string string)
    (name strVal : string) :
  environ !! name = Some strVal ->
  (forall d v, strconv.ParseBool strVal = (v, nil) ->
     defenv.Bool environ name d = v
     /\ defenv.BoolStrict environ name d = (v, nil)) /\
  (forall d v, ParseDuration strVal = (v, nil) ->
     defenv.Duration ParseDuration environ name d = v
     /\ defenv.DurationStrict ParseDuration environ name d = (v, nil)) /\
  (forall d v, ParseFloat strVal = (v, nil) ->
     defenv.Float64 ParseFloat environ name d = v
     /\ defenv.Float64Strict ParseFloat environ name d = (v, nil)) /\
  (forall d v, strconv.ParseInt IntSize strVal 0 = (v, nil) ->
     defenv.Int IntSize environ name d = defenv.int IntSize v
     /\ defenv.IntStrict IntSize environ name d = (defenv.int IntSize v, nil)
     /\ (IntSize = 32 \/ IntSize = 64 -> defenv.int IntSize v = v)) /\
  (forall d v, strconv.ParseInt IntSize strVal 64 = (v, nil) ->
     defenv.Int64 IntSize environ name d = v
     /\ defenv.Int64Strict IntSize environ name d = (v, nil)) /\
  (forall d v, strconv.ParseUint IntSize strVal 0 = (v, nil) ->
     defenv.Uint IntSize environ name d = defenv.uint IntSize v
     /\ defenv.UintStrict IntSize environ name d = (defenv.uint IntSize v, nil)
     /\ (IntSize = 32 \/ IntSize = 64 -> defenv.uint IntSize v = v)) /\
  (forall d v, strconv.ParseUint IntSize strVal 64 = (v, nil) ->
     defenv.Uint64 IntSize environ name d = v
     /\ defenv.Uint64Strict IntSize environ name d = (v, nil)).
Proof.
  intros Hset. accessors. rewrite (LookupEnv_present _ _ _ Hset).
  repeat split; try (now rewrite H).
  - intros Hsz. apply (ParseInt_cases IntSize Hsz 0 (or_introl eq_refl)) in H.
    destruct H as [[_ Hr] | [[? _] | ?]]; try discriminate.
    unfold defenv.int. apply signed_wrap_small; [| exact Hr].
    unfold width; simpl. destruct Hsz; lia.
  - intros Hsz. apply (ParseUint_cases IntSize Hsz 0 (or_introl eq_refl)) in H.
    destruct H as [[_ Hr] | [[? _] | [? _]]]; try discriminate.
    unfold defenv.uint. apply Z.mod_small.
    unfold width in Hr; simpl in Hr. lia.
Qed.

(** C7. A text with a leading minus sign is a syntax error for the unsigned
    accessors, whatever follows the sign: [Uint] and [Uint64] return the
    default, [UintStrict] and [Uint64Strict] return 0 and a [NumError] whose
    [Err] is [ErrSyntax] (message "... invalid syntax"), not [ErrRange]. *)
Theorem unsigned_rejects_minus_sign (environ : gmap string string)
    (name rest : string) (d : Z) :
  environ !! name = Some (String "-" rest) ->
  let strVal := String "-" rest in
  defenv.Uint IntSize environ name d = d
  /\ defenv.Uint64 IntSize environ name d = d
  /\ defenv.UintStrict IntSize environ name d
     = (0, Some (NumError "ParseUint" strVal ErrSyntax))
  /\ defenv.Uint64Strict IntSize environ name d
     = (0, Some (NumError "ParseUint" strVal ErrSyntax))
  /\ Error Quote (NumError "ParseUint" strVal ErrSyntax)
     = "strconv.ParseUint: parsing " +:+ Quote strVal +:+ ": invalid syntax"
  /\ (forall f n, Error Quote (NumError "ParseUint" strVal ErrSyntax)
                  <> Error Quote (NumError f n ErrRange)).
Proof.
  intros Hset strVal. accessors. rewrite (LookupEnv_present _ _ _ Hset).
  repeat split. intros f n. apply NumError_message_kind.
Qed.

(** C9. Where [int] is 64 bits wide, the native-width accessors and the
    64-bit accessors return the same results in every environment, for every
    key and default; the underlying parses coincide for every text. *)
Theorem native_width_64_agrees (environ : gmap string string) (name : string)
    (d : Z) :
  IntSize = 64 ->
  defenv.Int IntSize environ name d = defenv.Int64 IntSize environ name d
  /\ defenv.IntStrict IntSize environ name d
     = defenv.Int64Strict IntSize environ name d
  /\ defenv.Uint IntSize environ name d = defenv.Uint64 IntSize environ name d
  /\ defenv.UintStrict IntSize environ name d
     = defenv.Uint64Strict IntSize environ name d
  /\ (forall s, strconv.ParseInt IntSize s 0 = strconv.ParseInt IntSize s 64)
  /\ (forall s, strconv.ParseUint IntSize s 0 = strconv.ParseUint IntSize s 64).
Proof.
  intros ->.
  assert (HU : forall s, strconv.ParseUint 64 s 0 = strconv.ParseUint 64 s 64)
    by reflexivity.
  assert (HI : forall s, strconv.ParseInt 64 s 0 = strconv.ParseInt 64 s 64)
    by reflexivity.
  assert (Hint : forall s v, strconv.ParseInt 64 s 64 = (v, nil) -> defenv.int 64 v = v).
  { intros s v H.
    apply (ParseInt_cases 64 (or_intror eq_refl) 64 (or_intror eq_refl)) in H.
    destruct H as [[_ Hr] | [[? _] | ?]]; try discriminate.
    apply signed_wrap_small; [lia | exact Hr]. }
  assert (Huint : forall s v, strconv.ParseUint 64 s 64 = (v, nil) -> defenv.uint 64 v = v).
  { intros s v H.
    apply (ParseUint_cases 64 (or_intror eq_refl) 64 (or_intror eq_refl)) in H.
    destruct H as [[_ Hr] | [[? _] | [? _]]]; try discriminate.
    apply Z.mod_small. unfold width in Hr; simpl in Hr. lia. }
  accessors. destruct (LookupEnv environ name) as [strVal [|]];
    [| repeat split; auto].
  rewrite HU, HI.
  specialize (Hint strVal). specialize (Huint strVal).
  destruct (strconv.ParseInt 64 strVal 64) as [i [e |]];
    destruct (strconv.ParseUint 64 strVal 64) as [u [e' |]];
    repeat split; auto; try (now rewrite Hint); try (now rewrite Huint).
Qed.

(** C8. When the variable is set to base-10 integer text whose value lies
    outside the range of [int], [Int] returns the default and [IntStrict]
    returns 0 with a [NumError] whose [Err] is [ErrRange]; its message ends in
    "value out of range" and differs from the message of every syntax
    failure, such as those [IntStrict] gives for the texts 3.1 and bad. *)
Theorem Int_out_of_range_text (environ : gmap string string)
    (name strVal : string) (d : Z) :
  IntSize = 32 \/ IntSize = 64 ->
  environ !! name = Some strVal ->
  isIntText strVal = true ->
  ~ inSignedRange IntSize (intTextValue strVal) ->
  defenv.Int IntSize environ name d = d
  /\ defenv.IntStrict IntSize environ name d
     = (0, Some (NumError "ParseInt" strVal ErrRange))
  /\ Error Quote (NumError "ParseInt" strVal ErrRange)
     = "strconv.ParseInt: parsing " +:+ Quote strVal +:+ ": value out of range"
  /\ (forall f n, Error Quote (NumError f n ErrSyntax)
                  <> Error Quote (NumError "ParseInt" strVal ErrRange))
  /\ defenv.IntStrict IntSize (<[name := "3.1"]> environ) name d
     = (0, Some (NumError "ParseInt" "3.1" ErrSyntax))
  /\ defenv.IntStrict IntSize (<[name := "bad"]> environ) name d
     = (0, Some (NumError "ParseInt" "bad" ErrSyntax)).
Proof.
  intros Hsz Hset Htext Hout.
  destruct (ParseInt_intText IntSize Hsz 0 (or_introl eq_refl) strVal Htext)
    as [_ Hrange].
  destruct (Hrange Hout) as [v Hparse].
  accessors. rewrite (LookupEnv_present _ _ _ Hset), Hparse.
  rewrite !(LookupEnv_present _ name _ (lookup_insert_eq _ _ _)).
  repeat split.
  - intros f n. apply NumError_message_kind.
  - destruct Hsz as [-> | ->]; reflexivity.
Qed.

(** C6 (as amended). [Bool] and [BoolStrict] return true when the variable
    is set to exactly one of 1, t, T, true, TRUE, True, and false when it is
    set to exactly one of 0, f, F, false, FALSE, False. Every other text,
    the empty text and other mixtures of case included, fails to parse:
    [Bool] returns the default and [BoolStrict] returns false with an
    invalid-syntax error. *)
Theorem Bool_accepts_twelve_tokens (environ : gmap string string)
    (name strVal : string) (d : bool) :
  environ !! name = Some strVal ->
  (In strVal ["1"; "t"; "T"; "true"; "TRUE"; "True"] ->
     defenv.Bool environ name d = true
     /\ defenv.BoolStrict environ name d = (true, nil)) /\
  (In strVal ["0"; "f"; "F"; "false"; "FALSE"; "False"] ->
     defenv.Bool environ name d = false
     /\ defenv.BoolStrict environ name d = (false, nil)) /\
  (~ In strVal ["1"; "t"; "T"; "true"; "TRUE"; "True";
                "0"; "f"; "F"; "false"; "FALSE"; "False"] ->
     defenv.Bool environ name d = d
     /\ defenv.BoolStrict environ name d
        = (false, Some (NumError "ParseBool" strVal ErrSyntax))
     /\ Error Quote (NumError "ParseBool" strVal ErrSyntax)
        = "strconv.ParseBool: parsing " +:+ Quote strVal +:+ ": invalid syntax").
Proof.
  intros Hset. accessors. rewrite (LookupEnv_present _ _ _ Hset).
  split; [| split].
  - intros Hin. simpl in Hin.
    repeat (destruct Hin as [<- | Hin]; [now split |]). contradiction.
  - intros Hin. simpl in Hin.
    repeat (destruct Hin as [<- | Hin]; [now split |]). contradiction.
  - intros Hnot. unfold strconv.ParseBool.
    assert (Ht : existsb (String.eqb strVal)
                   ["1"; "t"; "T"; "true"; "TRUE"; "True"] = false).
    { apply not_true_is_false. intros Ht.
      apply existsb_exists in Ht as (t & Hin & Heq).
      apply String.eqb_eq in Heq as <-. apply Hnot.
      apply in_or_app with (l := [_; _; _; _; _; _]). now left. }
    assert (Hf : existsb (String.eqb strVal)
                   ["0"; "f"; "F"; "false"; "FALSE"; "False"] = false).
    { apply not_true_is_false. intros Hf.
      apply existsb_exists in Hf as (t & Hin & Heq).
      apply String.eqb_eq in Heq as <-. apply Hnot.
      apply in_or_app with (l := [_; _; _; _; _; _]). now right. }
    rewrite Ht, Hf.
    split; [reflexivity | split; reflexivity].
Qed.

(** The empty text is a value like any other for the lookup, and a syntax
    error for the boolean and integer parsers: the ordinary accessors return
    the default on it, whatever the platform width. *)
Lemma empty_text_returns_default (environ : gmap string string) (name : string) :
  environ !! name = Some "" ->
  (forall d, defenv.Bool environ name d = d)
  /\ (forall d, defenv.Int IntSize environ name d = d)
  /\ (forall d, defenv.Int64 IntSize environ name d = d)
  /\ (forall d, defenv.Uint IntSize environ name d = d)
  /\ (forall d, defenv.Uint64 IntSize environ name d = d).
Proof.
  intros Hset. accessors. rewrite (LookupEnv_present _ _ _ Hset).
  repeat split.
Qed.

End accessors.

(** ** [time.ParseDuration]: termination and errors *)

Lemma leadingInt_length s :
  forall x v s1, time.leadingInt s x = Some (v, s1) ->
                 (String.length s1 <= String.length s)%nat.
Proof.
  induction s as [| ch rest IH]; intros x v s1 Hrun; simpl in Hrun.
  - injection Hrun as <- <-. simpl. lia.
  - destruct ((Go.byte_of ch <? 48) || (Go.byte_of ch >? 57)).
    { injection Hrun as <- <-. simpl. lia. }
    destruct (x >? 2 ^ 63 / 10); [discriminate |].
    destruct (_ >? 2 ^ 63); [discriminate |].
    apply IH in Hrun. simpl. lia.
Qed.

Lemma leadingFraction_length s :
  forall x scale overflow f scale' s2,
    time.leadingFraction s x scale overflow = (f, scale', s2) ->
    (String.length s2 <= String.length s)%nat.
Proof.
  induction s as [| ch rest IH]; intros x scale overflow f scale' s2 Hrun;
    simpl in Hrun.
  - injection Hrun as <- <- <-. simpl. lia.
  - destruct ((Go.byte_of ch <? 48) || (Go.byte_of ch >? 57)).
    { injection Hrun as <- <- <-. simpl. lia. }
    destruct overflow; [apply IH in Hrun; simpl; lia |].
    destruct (x >? (2 ^ 63 - 1) / 10); [apply IH in Hrun; simpl; lia |].
    destruct (_ >? 2 ^ 63); apply IH in Hrun; simpl; lia.
Qed.

Lemma splitUnit_length s :
  forall u s3, time.splitUnit s = (u, s3) ->
               String.length s = (String.length u + String.length s3)%nat.
Proof.
  induction s as [| ch rest IH]; intros u s3 Hrun; simpl in Hrun.
  - injection Hrun as <- <-. reflexivity.
  - destruct ((Go.byte_of ch =? 46) || time.isDigitByte (Go.byte_of ch)).
    { injection Hrun as <- <-. reflexivity. }
    destruct (time.splitUnit rest) as [u' s'] eqn:Hrest.
    injection Hrun as <- <-. simpl. now rewrite (IH u' s' eq_refl).
Qed.

(** Each turn of the loop consumes at least one byte. *)
Lemma group_consumes orig ch s v s' :
  time.group orig ch s = inr (v, s') ->
  (String.length s' < String.length s)%nat.
Proof.
  unfold time.group.
  destruct (negb _); [discriminate |].
  destruct (time.leadingInt s 0) as [[v1 s1] |] eqn:Hint; [| discriminate].
  apply leadingInt_length in Hint.
  assert (Hfrac :
    forall r, r = match s1 with
                  | String dot s1' =>
                      if Go.byte_of dot =? 46 then
                        let '(f, scale, s2) :=
                          time.leadingFraction s1' 0 1%float false in
                        (f, scale, s2,
                         negb (Nat.eqb (String.length s1') (String.length s2)))
                      else (0, 1%float, s1, false)
                  | EmptyString => (0, 1%float, s1, false)
                  end ->
              (String.length (snd (fst r)) <= String.length s1)%nat).
  { intros r ->. destruct s1 as [| dot s1']; [simpl; lia |].
    destruct (Go.byte_of dot =? 46); [| simpl; lia].
    destruct (time.leadingFraction s1' 0 1%float false) as [[f scale] s2] eqn:Hf.
    apply leadingFraction_length in Hf. simpl. lia. }
  specialize (Hfrac _ eq_refl).
  destruct (match s1 with EmptyString => _ | String _ _ => _ end)
    as [[[f scale] s2] post].
  cbn [fst snd] in Hfrac.
  destruct (negb _ && negb post); [discriminate |].
  destruct (time.splitUnit s2) as [u s3] eqn:Hu.
  apply splitUnit_length in Hu.
  destruct (String.eqb_spec u "") as [-> | Hne]; [discriminate |].
  assert (Hlen : (0 < String.length u)%nat) by (destruct u; [congruence | simpl; lia]).
  destruct (time.unitMap u); [| discriminate].
  destruct (v1 >? 2 ^ 63 / z); [discriminate |].
  destruct (f >? 0).
  - destruct (_ >? 2 ^ 63); [discriminate |]. intros [= <- <-]. lia.
  - intros [= <- <-]. lia.
Qed.

(** The loop never runs out of fuel when it starts with as many turns as
    the text has bytes: [ParseDuration] always takes one of its [return]s. *)
Lemma loop_enough_fuel orig fuel :
  forall s d, (String.length s <= fuel)%nat -> time.loop fuel orig s d <> None.
Proof.
  induction fuel as [| fuel IH]; intros s d Hlen.
  - destruct s; [discriminate | simpl in Hlen; lia].
  - destruct s as [| ch rest]; [discriminate |]. cbn [time.loop].
    destruct (time.group orig ch (String ch rest)) as [e | [v s']] eqn:Hg;
      [discriminate |].
    apply group_consumes in Hg.
    destruct (_ >? 2 ^ 63); [discriminate |].
    apply IH. simpl in *. lia.
Qed.

Lemma group_error orig ch s e :
  time.group orig ch s = inl e -> isDurationError orig e.
Proof.
  unfold time.group, isDurationError.
  destruct (negb _); [intros [= <-]; auto |].
  destruct (time.leadingInt s 0) as [[v1 s1] |]; [| intros [= <-]; auto].
  destruct (match s1 with EmptyString => _ | String _ _ => _ end)
    as [[[f scale] s2] post].
  destruct (negb _ && negb post); [intros [= <-]; auto |].
  destruct (time.splitUnit s2) as [u s3].
  destruct (String.eqb u ""); [intros [= <-]; auto |].
  destruct (time.unitMap u); [| intros [= <-]; eauto].
  destruct (v1 >? 2 ^ 63 / z); [intros [= <-]; auto |].
  destruct (f >? 0); [| discriminate].
  destruct (_ >? 2 ^ 63); [intros [= <-]; auto | discriminate].
Qed.

Lemma loop_error orig fuel :
  forall s d e, time.loop fuel orig s d = Some (inl e) -> isDurationError orig e.
Proof.
  induction fuel as [| fuel IH]; intros s d e Hrun;
    destruct s as [| ch rest]; try discriminate.
  cbn [time.loop] in Hrun.
  destruct (time.group orig ch (String ch rest)) as [e' | [v s']] eqn:Hg.
  - injection Hrun as <-. eapply group_error; eassumption.
  - destruct (_ >? 2 ^ 63).
    + injection Hrun as <-. left. reflexivity.
    + eapply IH; eassumption.
Qed.

(** Every error of [ParseDuration] is one of its three messages about the
    text it was given, and comes with the value 0. *)
Lemma ParseDuration_error s v e :
  time.ParseDuration s = (v, Some e) -> v = 0 /\ isDurationError s e.
Proof.
  unfold time.ParseDuration.
  destruct (match s with EmptyString => _ | String _ _ => _ end) as [neg s'].
  destruct (String.eqb s' "0"); [discriminate |].
  destruct (String.eqb s' "").
  { intros [= <- <-]. split; [reflexivity | left; reflexivity]. }
  destruct (time.loop (String.length s') s s' 0) as [[e' | d] |] eqn:Hloop.
  - intros [= <- <-]. split; [reflexivity |]. eapply loop_error; eassumption.
  - destruct neg; [discriminate |].
    destruct (d >? 2 ^ 63 - 1); [| discriminate].
    intros [= <- <-]. split; [reflexivity | left; reflexivity].
  - discriminate.
Qed.

(** ** Texts inside messages *)

Lemma contains_unfold sub s :
  contains sub s
  = String.prefix sub s
    || match s with
       | EmptyString => false
       | String _ rest => contains sub rest
       end.
Proof. destruct s; reflexivity. Qed.

Lemma prefix_app sub b : String.prefix sub (sub +:+ b) = true.
Proof.
  induction sub as [| c sub IH]; [now destruct b |].
  change (String c sub +:+ b) with (String c (sub +:+ b)). simpl.
  destruct (ascii_dec c c); [exact IH | congruence].
Qed.

Lemma contains_start sub b : contains sub (sub +:+ b) = true.
Proof. rewrite contains_unfold, prefix_app. reflexivity. Qed.

Lemma contains_self sub : contains sub sub = true.
Proof.
  rewrite contains_unfold.
  assert (Hp : String.prefix sub sub = true).
  { induction sub as [| c sub IH]; [reflexivity |]. simpl.
    destruct (ascii_dec c c); [exact IH | congruence]. }
  now rewrite Hp.
Qed.

Lemma contains_skip a sub s : contains sub s = true -> contains sub (a +:+ s) = true.
Proof.
  intros Hs. induction a as [| c a IH]; [exact Hs |].
  change (String c a +:+ s) with (String c (a +:+ s)).
  rewrite contains_unfold, IH. apply orb_true_r.
Qed.

Lemma quoteBytes_plain s : plainText s = true -> time.quoteBytes s = s.
Proof.
  induction s as [| ch rest IH]; [reflexivity |]. simpl.
  intros Hplain. apply andb_true_iff in Hplain as [Hch Hrest].
  rewrite (IH Hrest). unfold plainByte in Hch. unfold time.quoteByte.
  apply andb_true_iff in Hch as [Hrange Hesc].
  apply andb_true_iff in Hrange as [Hlo Hhi].
  apply negb_true_iff in Hesc.
  apply Z.leb_le in Hlo. apply Z.ltb_lt in Hhi.
  destruct (Z.leb_spec 128 (Go.byte_of ch)); [lia |].
  destruct (Z.ltb_spec (Go.byte_of ch) 32); [lia |].
  cbn [orb]. rewrite Hesc. reflexivity.
Qed.

(** The message of each error of [ParseDuration] ends with the quoted text,
    and contains the text itself when [quote] has nothing to escape in it. *)
Lemma duration_message_names_text Quote orig e :
  isDurationError orig e ->
  contains (time.quote orig) (Error Quote e) = true
  /\ (plainText orig = true -> contains orig (Error Quote e) = true).
Proof.
  assert (Hq : plainText orig = true -> contains orig (time.quote orig) = true).
  { intros Hplain. unfold time.quote. rewrite (quoteBytes_plain _ Hplain).
    apply contains_skip, contains_start. }
  intros [-> | [-> | [u ->]]]; cbn [Error];
    unfold time.invalidDuration, time.missingUnit, time.unknownUnit; cbn [Error].
  - split; [apply contains_skip, contains_self |].
    intros Hplain. apply contains_skip, Hq, Hplain.
  - split; [apply contains_skip, contains_self |].
    intros Hplain. apply contains_skip, Hq, Hplain.
  - split; [do 3 apply contains_skip; apply contains_self |].
    intros Hplain. do 3 apply contains_skip. apply Hq, Hplain.
Qed.

(** ** The errors of the strict accessors *)

Section strict_errors.

Variable IntSize : Z.
Variable Quote : string -> string.
Variable ParseFloat : string -> Go.float64 * error.

(** C3 (as amended). When the variable is set to a text the parser of the
    type rejects, the strict accessor returns the zero value of the type
    (false, 0, 0.0, the zero duration), not the default, together with the
    error of the parser, unchanged. For [BoolStrict], [Float64Strict],
    [IntStrict], [Int64Strict], [UintStrict] and [Uint64Strict] that error is
    a [NumError] that records the function, the text as it was read, and
    [ErrSyntax] or [ErrRange]; its message is "strconv.F: parsing Q: K" with
    Q the text quoted by [strconv.Quote] and K "invalid syntax" or "value out
    of range". For [DurationStrict] the error is one of the three messages of
    [time.ParseDuration] ("time: invalid duration Q", "time: missing unit in
    duration Q", "time: unknown unit U in duration Q"): it ends with the text
    quoted by [time.quote], contains the text itself when there is nothing to
    escape in it, and names no category. The second hypothesis is the
    documented contract of [strconv.ParseFloat], whose code is a parameter
    here: its errors are [NumError] values for the text, of kind [ErrSyntax]
    or [ErrRange]. *)
Theorem strict_failure_zero_value_and_error (environ : gmap string string)
    (name strVal : string) :
  IntSize = 32 \/ IntSize = 64 ->
  (forall s v e, ParseFloat s = (v, Some e) ->
     e = NumError "ParseFloat" s ErrSyntax
     \/ e = NumError "ParseFloat" s ErrRange) ->
  environ !! name = Some strVal ->
  (forall d v e, strconv.ParseBool strVal = (v, Some e) ->
     defenv.BoolStrict environ name d = (false, Some e)
     /\ e = NumError "ParseBool" strVal ErrSyntax) /\
  (forall d v e, time.ParseDuration strVal = (v, Some e) ->
     defenv.DurationStrict time.ParseDuration environ name d = (0, Some e)
     /\ isDurationError strVal e
     /\ contains (time.quote strVal) (Error Quote e) = true
     /\ (plainText strVal = true -> contains strVal (Error Quote e) = true)) /\
  (forall d v e, ParseFloat strVal = (v, Some e) ->
     defenv.Float64Strict ParseFloat environ name d = (0%float, Some e)
     /\ (e = NumError "ParseFloat" strVal ErrSyntax
         \/ e = NumError "ParseFloat" strVal ErrRange)) /\
  (forall d v e, strconv.ParseInt IntSize strVal 0 = (v, Some e) ->
     defenv.IntStrict IntSize environ name d = (0, Some e)
     /\ (e = NumError "ParseInt" strVal ErrSyntax
         \/ e = NumError "ParseInt" strVal ErrRange)) /\
  (forall d v e, strconv.ParseInt IntSize strVal 64 = (v, Some e) ->
     defenv.Int64Strict IntSize environ name d = (0, Some e)
     /\ (e = NumError "ParseInt" strVal ErrSyntax
         \/ e = NumError "ParseInt" strVal ErrRange)) /\
  (forall d v e, strconv.ParseUint IntSize strVal 0 = (v, Some e) ->
     defenv.UintStrict IntSize environ name d = (0, Some e)
     /\ (e = NumError "ParseUint" strVal ErrSyntax
         \/ e = NumError "ParseUint" strVal ErrRange)) /\
  (forall d v e, strconv.ParseUint IntSize strVal 64 = (v, Some e) ->
     defenv.Uint64Strict IntSize environ name d = (0, Some e)
     /\ (e = NumError "ParseUint" strVal ErrSyntax
         \/ e = NumError "ParseUint" strVal ErrRange)) /\
  (forall f,
     Error Quote (NumError f strVal ErrSyntax)
     = "strconv." +:+ f +:+ ": parsing " +:+ Quote strVal +:+ ": invalid syntax"
     /\ Error Quote (NumError f strVal ErrRange)
        = "strconv." +:+ f +:+ ": parsing " +:+ Quote strVal
            +:+ ": value out of range"
     /\ contains (Quote strVal) (Error Quote (NumError f strVal ErrSyntax)) = true
     /\ contains (Quote strVal) (Error Quote (NumError f strVal ErrRange)) = true
     /\ contains "invalid syntax" (Error Quote (NumError f strVal ErrSyntax)) = true
     /\ contains "out of range" (Error Quote (NumError f strVal ErrRange)) = true) /\
  (forall (PD : string -> Z * error) d v e, PD strVal = (v, Some e) ->
     defenv.DurationStrict PD environ name d = (0, Some e)) /\
  (forall (PF : string -> Go.float64 * error) d v e, PF strVal = (v, Some e) ->
     defenv.Float64Strict PF environ name d = (0%float, Some e)).
Proof.
  intros Hsz Hfloat Hset. accessors. rewrite (LookupEnv_present _ _ _ Hset).
  repeat apply conj.
  - intros d v e H. rewrite H. split; [reflexivity |].
    unfold strconv.ParseBool, strconv.syntaxError, nil in H.
    repeat destruct (existsb _ _) in H; congruence.
  - intros d v e H. rewrite H. split; [reflexivity |].
    apply ParseDuration_error in H as [_ Hshape].
    split; [exact Hshape |]. now apply duration_message_names_text.
  - intros d v e H. rewrite H. split; [reflexivity |]. exact (Hfloat _ _ _ H).
  - intros d v e H. rewrite H. split; [reflexivity |].
    apply (ParseInt_cases IntSize Hsz 0 (or_introl eq_refl)) in H.
    destruct H as [[? _] | [[? _] | ?]]; [discriminate | left | right]; congruence.
  - intros d v e H. rewrite H. split; [reflexivity |].
    apply (ParseInt_cases IntSize Hsz 64 (or_intror eq_refl)) in H.
    destruct H as [[? _] | [[? _] | ?]]; [discriminate | left | right]; congruence.
  - intros d v e H. rewrite H. split; [reflexivity |].
    apply (ParseUint_cases IntSize Hsz 0 (or_introl eq_refl)) in H.
    destruct H as [[? _] | [[? _] | [? _]]]; [discriminate | left | right]; congruence.
  - intros d v e H. rewrite H. split; [reflexivity |].
    apply (ParseUint_cases IntSize Hsz 64 (or_intror eq_refl)) in H.
    destruct H as [[? _] | [[? _] | [? _]]]; [discriminate | left | right]; congruence.
  - intros f. cbn [Error]. unfold strconv.NumError_Error, strconv.numErr_Error.
    split; [reflexivity | split; [reflexivity |]].
    split; [do 3 apply contains_skip; apply contains_start |].
    split; [do 3 apply contains_skip; apply contains_start |].
    split; do 4 apply contains_skip.
    + apply (contains_skip ": "), contains_self.
    + apply (contains_skip ": value "), contains_self.
  - intros PD d v e H. now rewrite H.
  - intros PF d v e H. now rewrite H.
Qed.

End strict_errors.

(** ** The accessors on the repository's test tables

    Each list holds the results for the [envValue] column of one test
    function of the repository, in the order of its table; the expected
    side is the [expRes] (and [expErr]) column. *)

Import testdata.

Example TestBool_table :
  map (fun v => defenv.Bool (setenv v) "VALUE" false) ["true"; "1"] = [true; true]
  /\ map (fun v => defenv.Bool (setenv v) "VALUE" true) [""; "bad"; "F"]
     = [true; true; false]
  /\ defenv.Bool unset "VALUE" true = true.
Proof. repeat split. Qed.

Example TestBoolStrict_table :
  map (fun v => defenv.BoolStrict (setenv v) "VALUE" true) [""; "bad"; "F"]
  = [(false, Some (NumError "ParseBool" "" ErrSyntax));
     (false, Some (NumError "ParseBool" "bad" ErrSyntax));
     (false, nil)]
  /\ Error Quote (NumError "ParseBool" "bad" ErrSyntax)
     = "strconv.ParseBool: parsing " +:+ quoted "bad" +:+ ": invalid syntax"
  /\ defenv.BoolStrict unset "VALUE" true = (true, nil).
Proof. repeat split. Qed.

Example TestIntStrict_table :
  map (fun v => defenv.IntStrict 64 (setenv v) "VALUE" 321)
    ["123"; "-1"; "3.1"; "0"; ""; "bad"; "12345678901234567890"]
  = [(123, nil); (-1, nil);
     (0, Some (NumError "ParseInt" "3.1" ErrSyntax));
     (0, nil);
     (0, Some (NumError "ParseInt" "" ErrSyntax));
     (0, Some (NumError "ParseInt" "bad" ErrSyntax));
     (0, Some (NumError "ParseInt" "12345678901234567890" ErrRange))]
  /\ Error Quote (NumError "ParseInt" "12345678901234567890" ErrRange)
     = "strconv.ParseInt: parsing " +:+ quoted "12345678901234567890"
         +:+ ": value out of range"
  /\ defenv.IntStrict 64 unset "VALUE" 321 = (321, nil).
Proof. repeat split. Qed.

Example TestInt_table :
  map (fun v => defenv.Int 64 (setenv v) "VALUE" 321)
    ["123"; "-1"; "3.1"; "0"; ""; "bad"; "12345678901234567890"]
  = [123; -1; 321; 0; 321; 321; 321]
  /\ map (fun v => defenv.Int64 64 (setenv v) "VALUE" 321)
       ["123"; "-1"; "3.1"; "0"; ""; "bad"; "12345678901234567890"]
     = [123; -1; 321; 0; 321; 321; 321].
Proof. repeat split. Qed.

Example TestUintStrict_table :
  map (fun v => defenv.UintStrict 64 (setenv v) "VALUE" 321)
    ["123"; "-1"; "3.1"; "0"; ""; "bad"; "12345678901234567890";
     "123456789012345678901"]
  = [(123, nil);
     (0, Some (NumError "ParseUint" "-1" ErrSyntax));
     (0, Some (NumError "ParseUint" "3.1" ErrSyntax));
     (0, nil);
     (0, Some (NumError "ParseUint" "" ErrSyntax));
     (0, Some (NumError "ParseUint" "bad" ErrSyntax));
     (12345678901234567890, nil);
     (0, Some (NumError "ParseUint" "123456789012345678901" ErrRange))]
  /\ map (fun v => defenv.Uint64 64 (setenv v) "VALUE" 321)
       ["123"; "-1"; "3.1"; "0"; ""; "bad"; "12345678901234567890";
        "123456789012345678901"]
     = [123; 321; 321; 0; 321; 321; 12345678901234567890; 321].
Proof. repeat split. Qed.

Example TestDuration_table :
  map (fun v => defenv.Duration time.ParseDuration (setenv v) "VALUE" d3s)
    ["200ms"; "-2h"; "2h5m20s"; "30"; ""; "bad"]
  = [200 * time.Millisecond; -2 * time.Hour;
     2 * time.Hour + 5 * time.Minute + 20 * time.Second; d3s; d3s; d3s]
  /\ defenv.Duration time.ParseDuration unset "VALUE" d3s = d3s.
Proof. repeat split. Qed.

(** [time.ParseDuration] on signs, fractions, the two micro signs and the
    ends of the range. *)
Example ParseDuration_values :
  map time.ParseDuration
    ["0"; "-0"; "+5s"; "1.5s"; ".5s"; "5.s"; "1h2m3s4ms5us6ns";
     "12" +:+ time.micro_s; "12" +:+ time.mu_s;
     "0.3333333333333333333h"; "0.100000000000000000000h";
     "9223372036854775807ns"; "-9223372036854775808ns";
     "-2562047h47m16.854775808s"]
  = [(0, nil); (0, nil); (5 * time.Second, nil); (1500 * time.Millisecond, nil);
     (500 * time.Millisecond, nil); (5 * time.Second, nil);
     (3723004005006, nil); (12 * time.Microsecond, nil);
     (12 * time.Microsecond, nil); (20 * time.Minute, nil);
     (6 * time.Minute, nil); (2 ^ 63 - 1, nil); (- 2 ^ 63, nil);
     (- 2 ^ 63, nil)].
Proof. vm_compute. reflexivity. Qed.

Example ParseDuration_errors :
  map time.ParseDuration
    [""; "3"; "-"; "s"; "."; ".s"; "1d"; "9223372036854775808ns"; "9223373h"]
  = [(0, Some (time.invalidDuration "")); (0, Some (time.missingUnit "3"));
     (0, Some (time.invalidDuration "-")); (0, Some (time.invalidDuration "s"));
     (0, Some (time.invalidDuration ".")); (0, Some (time.invalidDuration ".s"));
     (0, Some (time.unknownUnit "d" "1d"));
     (0, Some (time.invalidDuration "9223372036854775808ns"));
     (0, Some (time.invalidDuration "9223373h"))].
Proof. vm_compute. reflexivity. Qed.

Example TestString_table :
  map (fun v => defenv.String (setenv v) "VALUE" "default") ["test"; ""]
  = ["test"; ""]
  /\ defenv.String unset "VALUE" "default" = "default".
Proof. repeat split. Qed.

(** On a 32-bit platform [Int] and [Int64] differ: 3000000000 does not fit
    an [int]. *)
Example native_width_32_differs :
  defenv.Int 32 (setenv "3000000000") "VALUE" 321 = 321
  /\ defenv.Int64 32 (setenv "3000000000") "VALUE" 321 = 3000000000.
Proof. repeat split. Qed.

(** ** The claims at concrete inputs *)

Lemma absent_returns_default_witness :
  unset !! "VALUE" = None
  /\ defenv.Bool unset "VALUE" true = true
  /\ defenv.BoolStrict unset "VALUE" true = (true, nil)
  /\ defenv.Duration ParseDuration unset "VALUE" d3s = d3s
  /\ defenv.DurationStrict ParseDuration unset "VALUE" d3s = (d3s, nil)
  /\ defenv.Float64 ParseFloat unset "VALUE" f1_2 = f1_2
  /\ defenv.Float64Strict ParseFloat unset "VALUE" f1_2 = (f1_2, nil)
  /\ defenv.Int IntSize unset "VALUE" 321 = 321
  /\ defenv.IntStrict IntSize unset "VALUE" 321 = (321, nil)
  /\ defenv.Int64 IntSize unset "VALUE" 321 = 321
  /\ defenv.Int64Strict IntSize unset "VALUE" 321 = (321, nil)
  /\ defenv.Uint IntSize unset "VALUE" 321 = 321
  /\ defenv.UintStrict IntSize unset "VALUE" 321 = (321, nil)
  /\ defenv.Uint64 IntSize unset "VALUE" 321 = 321
  /\ defenv.Uint64Strict IntSize unset "VALUE" 321 = (321, nil)
  /\ defenv.String unset "VALUE" "default" = "default".
Proof.
  assert (Habs : unset !! "VALUE" = None) by (vm_compute; reflexivity).
  destruct (absent_returns_default IntSize ParseFloat ParseDuration
              unset "VALUE" Habs)
    as (Hb & Hd & Hf & Hi & Hi64 & Hu & Hu64 & Hs).
  split; [exact Habs |].
  destruct (Hb true), (Hd d3s), (Hf f1_2), (Hi 321), (Hi64 321), (Hu 321),
    (Hu64 321).
  repeat split; auto.
Defined.

Lemma ordinary_absorbs_parse_failure_witness :
  setenv "bad" !! "VALUE" = Some "bad"
  /\ defenv.Bool (setenv "bad") "VALUE" true = true
  /\ defenv.Duration ParseDuration (setenv "bad") "VALUE" d3s = d3s
  /\ defenv.Float64 ParseFloat (setenv "bad") "VALUE" f1_2 = f1_2
  /\ defenv.Int IntSize (setenv "bad") "VALUE" 321 = 321
  /\ defenv.Int64 IntSize (setenv "bad") "VALUE" 321 = 321
  /\ defenv.Uint IntSize (setenv "bad") "VALUE" 321 = 321
  /\ defenv.Uint64 IntSize (setenv "bad") "VALUE" 321 = 321.
Proof.
  assert (Hset : setenv "bad" !! "VALUE" = Some "bad") by (vm_compute; reflexivity).
  destruct (ordinary_absorbs_parse_failure IntSize ParseFloat ParseDuration
              (setenv "bad") "VALUE" "bad" Hset)
    as (Hb & Hd & Hf & Hi & Hi64 & Hu & Hu64).
  split; [exact Hset |].
  pose proof (Hb true _ _ eq_refl). pose proof (Hd d3s _ _ eq_refl).
  pose proof (Hf f1_2 _ _ eq_refl). pose proof (Hi 321 _ _ eq_refl).
  pose proof (Hi64 321 _ _ eq_refl). pose proof (Hu 321 _ _ eq_refl).
  pose proof (Hu64 321 _ _ eq_refl).
  repeat split; auto.
Defined.

Lemma result_depends_on_own_entry_witness :
  (<["TERM" := "xterm"]> (setenv "1")) !! "VALUE" = setenv "1" !! "VALUE"
  /\ defenv.Bool (<["TERM" := "xterm"]> (setenv "1")) "VALUE" false
     = defenv.Bool (setenv "1") "VALUE" false
  /\ defenv.String (<["TERM" := "xterm"]> (setenv "1")) "VALUE" "default"
     = defenv.String (setenv "1") "VALUE" "default"
  /\ defenv.Uint64Strict IntSize (<["TERM" := "xterm"]> (setenv "1")) "VALUE" 321
     = defenv.Uint64Strict IntSize (setenv "1") "VALUE" 321.
Proof.
  assert (Hsame : (<["TERM" := "xterm"]> (setenv "1")) !! "VALUE"
                  = setenv "1" !! "VALUE") by (vm_compute; reflexivity).
  pose proof (result_depends_on_own_entry IntSize ParseFloat ParseDuration
                _ _ "VALUE" Hsame) as H.
  split; [exact Hsame |]. repeat split; apply H.
Defined.

Lemma parsed_value_from_both_forms_witness :
  setenv "0" !! "VALUE" = Some "0"
  /\ defenv.Bool (setenv "0") "VALUE" true = false
  /\ defenv.BoolStrict (setenv "0") "VALUE" true = (false, nil)
  /\ defenv.Float64 ParseFloat (setenv "0") "VALUE" f1_2 = 0%float
  /\ defenv.Float64Strict ParseFloat (setenv "0") "VALUE" f1_2 = (0%float, nil)
  /\ defenv.Int IntSize (setenv "0") "VALUE" 321 = 0
  /\ defenv.IntStrict IntSize (setenv "0") "VALUE" 321 = (0, nil)
  /\ defenv.Int64 IntSize (setenv "0") "VALUE" 321 = 0
  /\ defenv.Int64Strict IntSize (setenv "0") "VALUE" 321 = (0, nil)
  /\ defenv.Uint IntSize (setenv "0") "VALUE" 321 = 0
  /\ defenv.UintStrict IntSize (setenv "0") "VALUE" 321 = (0, nil)
  /\ defenv.Uint64 IntSize (setenv "0") "VALUE" 321 = 0
  /\ defenv.Uint64Strict IntSize (setenv "0") "VALUE" 321 = (0, nil)
  /\ setenv "200ms" !! "VALUE" = Some "200ms"
  /\ defenv.Duration ParseDuration (setenv "200ms") "VALUE" d3s = 200 * Millisecond
  /\ defenv.DurationStrict ParseDuration (setenv "200ms") "VALUE" d3s
     = (200 * Millisecond, nil).
Proof.
  assert (H0 : setenv "0" !! "VALUE" = Some "0") by (vm_compute; reflexivity).
  assert (H200 : setenv "200ms" !! "VALUE" = Some "200ms")
    by (vm_compute; reflexivity).
  destruct (parsed_value_from_both_forms IntSize ParseFloat ParseDuration
              (setenv "0") "VALUE" "0" H0)
    as (Hb & _ & Hf & Hi & Hi64 & Hu & Hu64).
  destruct (parsed_value_from_both_forms IntSize ParseFloat ParseDuration
              (setenv "200ms") "VALUE" "200ms" H200)
    as (_ & Hd & _).
  destruct (Hb true false eq_refl), (Hf f1_2 0%float eq_refl),
    (Hi 321 0 eq_refl) as (? & ? & _), (Hi64 321 0 eq_refl),
    (Hu 321 0 eq_refl) as (? & ? & _), (Hu64 321 0 eq_refl),
    (Hd d3s (200 * Millisecond) eq_refl).
  repeat split; auto.
Defined.

Lemma unsigned_rejects_minus_sign_witness :
  setenv "-1" !! "VALUE" = Some "-1"
  /\ defenv.Uint IntSize (setenv "-1") "VALUE" 321 = 321
  /\ defenv.Uint64 IntSize (setenv "-1") "VALUE" 321 = 321
  /\ defenv.UintStrict IntSize (setenv "-1") "VALUE" 321
     = (0, Some (NumError "ParseUint" "-1" ErrSyntax))
  /\ defenv.Uint64Strict IntSize (setenv "-1") "VALUE" 321
     = (0, Some (NumError "ParseUint" "-1" ErrSyntax))
  /\ Error Quote (NumError "ParseUint" "-1" ErrSyntax)
     = "strconv.ParseUint: parsing " +:+ quoted "-1" +:+ ": invalid syntax".
Proof.
  assert (Hset : setenv "-1" !! "VALUE" = Some "-1") by (vm_compute; reflexivity).
  destruct (unsigned_rejects_minus_sign IntSize Quote (setenv "-1") "VALUE" "1"
              321 Hset)
    as (H1 & H2 & H3 & H4 & H5 & _).
  repeat split; auto.
Defined.

Lemma native_width_64_agrees_witness :
  IntSize = 64
  /\ defenv.Int IntSize (setenv "12345678901234567890") "VALUE" 321
     = defenv.Int64 IntSize (setenv "12345678901234567890") "VALUE" 321
  /\ defenv.IntStrict IntSize (setenv "12345678901234567890") "VALUE" 321
     = defenv.Int64Strict IntSize (setenv "12345678901234567890") "VALUE" 321
  /\ defenv.Uint IntSize (setenv "12345678901234567890") "VALUE" 321
     = defenv.Uint64 IntSize (setenv "12345678901234567890") "VALUE" 321
  /\ defenv.UintStrict IntSize (setenv "12345678901234567890") "VALUE" 321
     = defenv.Uint64Strict IntSize (setenv "12345678901234567890") "VALUE" 321.
Proof.
  destruct (native_width_64_agrees IntSize (setenv "12345678901234567890")
              "VALUE" 321 eq_refl)
    as (H1 & H2 & H3 & H4 & _).
  repeat split; auto.
Defined.

Lemma Int_out_of_range_text_witness :
  (IntSize = 32 \/ IntSize = 64)
  /\ setenv "12345678901234567890" !! "VALUE" = Some "12345678901234567890"
  /\ isIntText "12345678901234567890" = true
  /\ ~ inSignedRange IntSize (intTextValue "12345678901234567890")
  /\ defenv.Int IntSize (setenv "12345678901234567890") "VALUE" 321 = 321
  /\ defenv.IntStrict IntSize (setenv "12345678901234567890") "VALUE" 321
     = (0, Some (NumError "ParseInt" "12345678901234567890" ErrRange))
  /\ Error Quote (NumError "ParseInt" "12345678901234567890" ErrRange)
     = "strconv.ParseInt: parsing " +:+ Quote "12345678901234567890"
         +:+ ": value out of range".
Proof.
  assert (Hsz : IntSize = 32 \/ IntSize = 64) by (right; reflexivity).
  assert (Hset : setenv "12345678901234567890" !! "VALUE"
                 = Some "12345678901234567890") by (vm_compute; reflexivity).
  assert (Htext : isIntText "12345678901234567890" = true) by reflexivity.
  assert (Hout : ~ inSignedRange IntSize (intTextValue "12345678901234567890")).
  { unfold inSignedRange. vm_compute. intros [_ Hle]. apply Hle. reflexivity. }
  destruct (Int_out_of_range_text IntSize Quote _ "VALUE" _ 321 Hsz Hset Htext Hout)
    as (H1 & H2 & H3 & _).
  repeat split; auto.
Defined.

Lemma strict_failure_zero_value_and_error_witness :
  (IntSize = 32 \/ IntSize = 64)
  /\ setenv "bad" !! "VALUE" = Some "bad"
  /\ defenv.BoolStrict (setenv "bad") "VALUE" true
     = (false, Some (NumError "ParseBool" "bad" ErrSyntax))
  /\ defenv.DurationStrict time.ParseDuration (setenv "bad") "VALUE" d3s
     = (0, Some (time.invalidDuration "bad"))
  /\ Error Quote (time.invalidDuration "bad")
     = "time: invalid duration " +:+ quoted "bad"
  /\ contains "bad" (Error Quote (time.invalidDuration "bad")) = true
  /\ defenv.Float64Strict ParseFloat (setenv "bad") "VALUE" f1_2
     = (0%float, Some (NumError "ParseFloat" "bad" ErrSyntax))
  /\ defenv.IntStrict IntSize (setenv "bad") "VALUE" 321
     = (0, Some (NumError "ParseInt" "bad" ErrSyntax))
  /\ defenv.Int64Strict IntSize (setenv "bad") "VALUE" 321
     = (0, Some (NumError "ParseInt" "bad" ErrSyntax))
  /\ defenv.UintStrict IntSize (setenv "bad") "VALUE" 321
     = (0, Some (NumError "ParseUint" "bad" ErrSyntax))
  /\ defenv.Uint64Strict IntSize (setenv "bad") "VALUE" 321
     = (0, Some (NumError "ParseUint" "bad" ErrSyntax))
  /\ Error Quote (NumError "ParseInt" "bad" ErrSyntax)
     = "strconv.ParseInt: parsing " +:+ Quote "bad" +:+ ": invalid syntax".
Proof.
  assert (Hsz : IntSize = 32 \/ IntSize = 64) by (right; reflexivity).
  assert (Hfloat : forall s v e, ParseFloat s = (v, Some e) ->
                     e = NumError "ParseFloat" s ErrSyntax
                     \/ e = NumError "ParseFloat" s ErrRange).
  { intros s v e H. unfold ParseFloat, nil in H.
    repeat destruct (String.eqb s _) in H; try discriminate H.
    injection H as _ <-. left. reflexivity. }
  assert (Hset : setenv "bad" !! "VALUE" = Some "bad") by (vm_compute; reflexivity).
  destruct (strict_failure_zero_value_and_error IntSize Quote ParseFloat
              (setenv "bad") "VALUE" "bad" Hsz Hfloat Hset)
    as (Hb & Hd & Hf & Hi & Hi64 & Hu & Hu64 & Hmsg & _ & _).
  destruct (Hb true _ _ eq_refl) as [Hb' _].
  destruct (Hd d3s 0 (time.invalidDuration "bad") eq_refl)
    as (Hd' & _ & _ & Hplain).
  destruct (Hf f1_2 _ _ eq_refl) as [Hf' _].
  destruct (Hi 321 _ _ eq_refl) as [Hi' _].
  destruct (Hi64 321 _ _ eq_refl) as [Hi64' _].
  destruct (Hu 321 _ _ eq_refl) as [Hu' _].
  destruct (Hu64 321 _ _ eq_refl) as [Hu64' _].
  destruct (Hmsg "ParseInt") as [Hm _].
  pose proof (Hplain eq_refl) as Htext.
  repeat apply conj; try assumption; reflexivity.
Defined.

(** C3 as stated fails for [DurationStrict]. For the text 30 the error of
    [time.ParseDuration] is "time: missing unit in duration" followed by the
    quoted text, and for the duration 3000000h, which is well formed and too
    large for an [int64] of nanoseconds, it is "time: invalid duration"
    followed by the quoted text: neither message names one of the two
    categories. The text is quoted: for the text made of 1 and a double
    quote, the message does not contain the text as it was read. *)
Lemma DurationStrict_error_names_no_category :
  defenv.DurationStrict time.ParseDuration (setenv "30") "VALUE" d3s
  = (0, Some (time.missingUnit "30"))
  /\ Error Quote (time.missingUnit "30")
     = "time: missing unit in duration " +:+ quoted "30"
  /\ contains "invalid syntax" (Error Quote (time.missingUnit "30")) = false
  /\ contains "out of range" (Error Quote (time.missingUnit "30")) = false
  /\ defenv.DurationStrict time.ParseDuration (setenv "3000000h") "VALUE" d3s
     = (0, Some (time.invalidDuration "3000000h"))
  /\ Error Quote (time.invalidDuration "3000000h")
     = "time: invalid duration " +:+ quoted "3000000h"
  /\ contains "invalid syntax" (Error Quote (time.invalidDuration "3000000h"))
     = false
  /\ contains "out of range" (Error Quote (time.invalidDuration "3000000h"))
     = false
  /\ defenv.DurationStrict time.ParseDuration (setenv ("1" +:+ dq)) "VALUE" d3s
     = (0, Some (time.unknownUnit dq ("1" +:+ dq)))
  /\ contains ("1" +:+ dq) (Error Quote (time.unknownUnit dq ("1" +:+ dq)))
     = false.
Proof. repeat split. Qed.

Lemma Bool_accepts_twelve_tokens_witness :
  setenv "1" !! "VALUE" = Some "1"
  /\ defenv.Bool (setenv "1") "VALUE" false = true
  /\ defenv.BoolStrict (setenv "1") "VALUE" false = (true, nil)
  /\ setenv "F" !! "VALUE" = Some "F"
  /\ defenv.Bool (setenv "F") "VALUE" true = false
  /\ defenv.BoolStrict (setenv "F") "VALUE" true = (false, nil)
  /\ setenv "" !! "VALUE" = Some ""
  /\ defenv.Bool (setenv "") "VALUE" true = true
  /\ defenv.BoolStrict (setenv "") "VALUE" true
     = (false, Some (NumError "ParseBool" "" ErrSyntax)).
Proof.
  assert (H1 : setenv "1" !! "VALUE" = Some "1") by (vm_compute; reflexivity).
  assert (HF : setenv "F" !! "VALUE" = Some "F") by (vm_compute; reflexivity).
  assert (HE : setenv "" !! "VALUE" = Some "") by (vm_compute; reflexivity).
  destruct (Bool_accepts_twelve_tokens Quote _ "VALUE" _ false H1) as (Ht & _ & _).
  destruct (Bool_accepts_twelve_tokens Quote _ "VALUE" _ true HF) as (_ & Hf & _).
  destruct (Bool_accepts_twelve_tokens Quote _ "VALUE" _ true HE) as (_ & _ & He).
  destruct Ht as [? ?]; [simpl; auto |].
  destruct Hf as [? ?]; [simpl; auto 10 |].
  destruct He as (? & ? & _).
  { simpl. intros Hin. repeat (destruct Hin as [Hin | Hin]; [discriminate Hin |]).
    exact Hin. }
  repeat split; auto.
Defined.

(** C6 as stated fails on other mixtures of case: tRUE equals true up to
    case, yet it does not parse, so [Bool] returns the default (here false)
    and [BoolStrict] an error. *)
Lemma Bool_rejects_mixed_case :
  equalFold "tRUE" "true" = true
  /\ defenv.Bool (setenv "tRUE") "VALUE" false = false
  /\ defenv.BoolStrict (setenv "tRUE") "VALUE" true
     = (false, Some (NumError "ParseBool" "tRUE" ErrSyntax)).
Proof. repeat split. Qed.

(** * Further properties of the accessors *)

(** ** The grammar of [strconv.ParseUint] and [strconv.ParseInt] *)

(** A byte with a value below the base is a decimal digit: letters have
    values from 10 on. *)
Lemma digitVal_below_base ch d :
  strconv.digitVal (Go.byte_of ch) = Some d -> (d >=? strconv.base) = false ->
  isDigit ch = true /\ d = Go.byte_of ch - 48.
Proof.
  unfold strconv.digitVal, isDigit, strconv.base. intros Hd Hlt.
  destruct ((48 <=? Go.byte_of ch) && (Go.byte_of ch <=? 57)).
  - injection Hd as <-. now split.
  - destruct ((97 <=? strconv.lower (Go.byte_of ch))
              && (strconv.lower (Go.byte_of ch) <=? 122)) eqn:Hletter;
      [| discriminate].
    injection Hd as <-. apply andb_true_iff in Hletter as [Hlo _].
    apply Z.leb_le in Hlo.
    destruct (Z.geb_spec (strconv.lower (Go.byte_of ch) - 97 + 10) 10);
      [discriminate | lia].
Qed.

(** The loop on a text that starts with decimal digits [ds]: it goes on with
    the number they write, or stops with a range error as soon as that number
    exceeds [maxVal], whatever follows the digits. *)
Lemma ParseUint_loop_digits_app s0 maxVal rest ds :
  forall n,
    0 <= n <= maxVal -> maxVal <= Go.maxUint64 -> allDigits ds = true ->
    strconv.ParseUint_loop s0 maxVal (ds +:+ rest) n
    = if digitsValue n ds <=? maxVal
      then strconv.ParseUint_loop s0 maxVal rest (digitsValue n ds)
      else (maxVal, Some (strconv.rangeError "ParseUint" s0)).
Proof.
  unfold Go.maxUint64.
  induction ds as [| c ds IH]; intros n Hn Hmax Hall.
  - change ("" +:+ rest) with rest. simpl.
    destruct (Z.leb_spec n maxVal); [reflexivity | lia].
  - change (String c ds +:+ rest) with (String c (ds +:+ rest)).
    simpl in Hall. apply andb_true_iff in Hall as [Hc Hds].
    cbn [strconv.ParseUint_loop digitsValue].
    destruct (isDigit_digitVal c Hc) as [-> Hd].
    set (d := Go.byte_of c - 48) in *.
    assert (Hmono : n * 10 + d <= digitsValue (n * 10 + d) ds)
      by (apply digitsValue_ge; [lia | exact Hds]).
    unfold strconv.base, strconv.cutoff, Go.maxUint64.
    change ((2 ^ 64 - 1) / 10 + 1) with 1844674407370955162.
    destruct (Z.geb_spec d 10) as [| _]; [lia |].
    destruct (Z.geb_spec n 1844674407370955162) as [Hcut | Hcut].
    { destruct (Z.leb_spec (digitsValue (n * 10 + d) ds) maxVal); [lia | reflexivity]. }
    rewrite (uint64_wrap_small (n * 10)) by lia.
    destruct (Z_lt_le_dec (n * 10 + d) (2 ^ 64)) as [Hfit | Hover].
    + rewrite (uint64_wrap_small (n * 10 + d)) by lia.
      destruct (Z.ltb_spec (n * 10 + d) (n * 10)); [lia |]. cbn [orb].
      rewrite Z.gtb_ltb.
      destruct (Z.ltb_spec maxVal (n * 10 + d)) as [Hbig | Hok].
      * destruct (Z.leb_spec (digitsValue (n * 10 + d) ds) maxVal); [lia | reflexivity].
      * apply IH; [lia | lia | exact Hds].
    + assert (Hw : Go.uint64_wrap (n * 10 + d) = n * 10 + d - 2 ^ 64).
      { unfold Go.uint64_wrap. symmetry. apply (Z.mod_unique_pos _ _ 1); lia. }
      rewrite Hw.
      destruct (Z.ltb_spec (n * 10 + d - 2 ^ 64) (n * 10)); [| lia]. cbn [orb].
      destruct (Z.leb_spec (digitsValue (n * 10 + d) ds) maxVal); [lia | reflexivity].
Qed.

(** When the loop ends without an error, every byte it read was a decimal
    digit and its result is the number written. *)
Lemma ParseUint_loop_success s0 maxVal s :
  forall n v,
    0 <= n ->
    strconv.ParseUint_loop s0 maxVal s n = (v, None) ->
    allDigits s = true /\ v = digitsValue n s.
Proof.
  induction s as [| ch rest IH]; intros n v Hn Hrun; simpl in Hrun.
  - injection Hrun as <-. now split.
  - destruct (strconv.digitVal (Go.byte_of ch)) as [d |] eqn:Hd; [| discriminate].
    destruct (d >=? strconv.base) eqn:Hbase; [discriminate |].
    destruct (digitVal_below_base ch d Hd Hbase) as [Hdigit ->].
    destruct (isDigit_digitVal ch Hdigit) as [_ Hrange].
    unfold strconv.cutoff, strconv.base, Go.maxUint64 in Hrun.
    change ((2 ^ 64 - 1) / 10 + 1) with 1844674407370955162 in Hrun.
    destruct (Z.geb_spec n 1844674407370955162) as [| Hcut]; [discriminate |].
    rewrite (uint64_wrap_small (n * 10)) in Hrun by lia.
    destruct (Z_lt_le_dec (n * 10 + (Go.byte_of ch - 48)) (2 ^ 64)) as [Hfit | Hover].
    + rewrite (uint64_wrap_small (n * 10 + _)) in Hrun by lia.
      destruct ((_ <? _) || (_ >? _)); [discriminate |].
      apply IH in Hrun as [Hall ->]; [| lia].
      cbn [allDigits digitsValue]. rewrite Hdigit, Hall. now split.
    + assert (Hw : Go.uint64_wrap (n * 10 + (Go.byte_of ch - 48))
                   = n * 10 + (Go.byte_of ch - 48) - 2 ^ 64).
      { unfold Go.uint64_wrap. symmetry. apply (Z.mod_unique_pos _ _ 1); lia. }
      rewrite Hw in Hrun.
      destruct (Z.ltb_spec (n * 10 + (Go.byte_of ch - 48) - 2 ^ 64) (n * 10));
        [discriminate | lia].
Qed.

Section strconv_grammar.

Variable IntSize : Z.
Hypothesis IntSize_spec : IntSize = 32 \/ IntSize = 64.
Variable bitSize : Z.
Hypothesis bitSize_spec : bitSize = 0 \/ bitSize = 64.

Let w := width IntSize bitSize.

(** [ParseUint] accepts exactly the non-empty texts of decimal digits whose
    number fits the width, and returns that number. *)
Lemma ParseUint_accepts s v :
  strconv.ParseUint IntSize s bitSize = (v, nil)
  <-> s <> "" /\ allDigits s = true /\ v = digitsValue 0 s /\ v <= 2 ^ w - 1.
Proof.
  split.
  - intros Hparse.
    pose proof (ParseUint_cases IntSize IntSize_spec bitSize bitSize_spec
                  s v nil Hparse) as Hcases.
    destruct Hcases as [[_ Hv] | [[? _] | [? _]]]; try discriminate.
    destruct s as [| c rest].
    { unfold strconv.ParseUint in Hparse. simpl in Hparse. discriminate. }
    rewrite (ParseUint_nonempty IntSize IntSize_spec bitSize bitSize_spec)
      in Hparse.
    apply ParseUint_loop_success in Hparse as [Hall ->]; [| lia].
    fold w in Hv. repeat split; [discriminate | exact Hall | lia].
  - intros (Hne & Hall & -> & Hfit).
    rewrite (ParseUint_digits IntSize IntSize_spec bitSize bitSize_spec s Hne Hall).
    fold w. destruct (Z.leb_spec (digitsValue 0 s) (2 ^ w - 1)); [reflexivity | lia].
Qed.

(** [ParseUint] on digits that already exceed the width: a range error,
    whatever follows them. *)
Lemma ParseUint_overflow_first ds rest :
  allDigits ds = true -> 2 ^ w - 1 < digitsValue 0 ds ->
  strconv.ParseUint IntSize (ds +:+ rest) bitSize
  = (2 ^ w - 1, Some (NumError "ParseUint" (ds +:+ rest) ErrRange)).
Proof.
  intros Hall Hover.
  pose proof (width_spec IntSize IntSize_spec bitSize bitSize_spec) as Hw.
  fold w in Hw.
  assert (Hbound : 0 <= 2 ^ w - 1 <= Go.maxUint64)
    by (unfold Go.maxUint64; destruct Hw as [-> | ->]; simpl; lia).
  destruct ds as [| c ds].
  { simpl in Hover. lia. }
  change (String c ds +:+ rest) with (String c (ds +:+ rest)).
  rewrite (ParseUint_nonempty IntSize IntSize_spec bitSize bitSize_spec).
  fold w. change (String c (ds +:+ rest)) with (String c ds +:+ rest) at 2.
  rewrite ParseUint_loop_digits_app by (try exact Hall; lia).
  destruct (Z.leb_spec (digitsValue 0 (String c ds)) (2 ^ w - 1)); [lia | reflexivity].
Qed.

(** [ParseInt] accepts exactly the integer texts (an optional sign and one
    or more decimal digits) whose number fits the signed range of the width,
    and returns that number. *)
Lemma ParseInt_accepts s v :
  strconv.ParseInt IntSize s bitSize = (v, nil)
  <-> isIntText s = true /\ v = intTextValue s /\ inSignedRange w v.
Proof.
  split.
  - destruct s as [| c rest]; [discriminate |].
    rewrite (ParseInt_unfold IntSize IntSize_spec bitSize bitSize_spec).
    cbv zeta. fold w.
    set (s' := if Ascii.eqb c "+" || Ascii.eqb c "-" then rest else String c rest).
    destruct (strconv.ParseUint IntSize s' bitSize) as [un e] eqn:HU.
    cbn [fst snd]. intros Hfin.
    pose proof (ParseUint_cases IntSize IntSize_spec bitSize bitSize_spec
                  s' un e HU) as Hcases.
    fold w in Hcases.
    destruct Hcases as [[-> Hun] | [[-> ->] | [-> ->]]].
    2: { discriminate Hfin. }
    2: { rewrite (ParseInt_finish_range IntSize IntSize_spec bitSize bitSize_spec)
           in Hfin. discriminate Hfin. }
    rewrite (ParseInt_finish_value IntSize IntSize_spec bitSize bitSize_spec)
      in Hfin by exact Hun.
    cbv zeta in Hfin. fold w in Hfin.
    destruct (inSignedRangeb w _) eqn:Hin; [| discriminate].
    injection Hfin as <-. apply inSignedRangeb_spec in Hin.
    apply ParseUint_accepts in HU as (Hne & Hall & -> & _).
    unfold isIntText, intTextValue, s' in *.
    destruct (Ascii.eqb c "+") eqn:Hplus; [| destruct (Ascii.eqb c "-") eqn:Hminus];
      cbn [orb negb andb] in *.
    + apply String.eqb_neq in Hne. rewrite Hne, Hall.
      split; [reflexivity | split; [reflexivity | exact Hin]].
    + apply String.eqb_neq in Hne. rewrite Hne, Hall.
      split; [reflexivity | split; [reflexivity | exact Hin]].
    + split; [exact Hall | split; [reflexivity | exact Hin]].
  - intros (Htext & -> & Hin).
    now apply (ParseInt_intText IntSize IntSize_spec bitSize bitSize_spec).
Qed.

End strconv_grammar.

(** ** Ordinary and strict forms *)

Section forms.

Variable IntSize : Z.
Variable ParseFloat : string -> Go.float64 * error.
Variable ParseDuration : string -> Z * error.

(** X1. In every environment, set or not, an ordinary accessor returns what
    its strict form returns when that comes with a nil error, and the default
    when it comes with an error. *)
Theorem ordinary_is_strict_or_default (environ : gmap string string)
    (name : string) :
  (forall d, defenv.Bool environ name d
             = orDefault d (defenv.BoolStrict environ name d)) /\
  (forall d, defenv.Duration ParseDuration environ name d
             = orDefault d (defenv.DurationStrict ParseDuration environ name d)) /\
  (forall d, defenv.Float64 ParseFloat environ name d
             = orDefault d (defenv.Float64Strict ParseFloat environ name d)) /\
  (forall d, defenv.Int IntSize environ name d
             = orDefault d (defenv.IntStrict IntSize environ name d)) /\
  (forall d, defenv.Int64 IntSize environ name d
             = orDefault d (defenv.Int64Strict IntSize environ name d)) /\
  (forall d, defenv.Uint IntSize environ name d
             = orDefault d (defenv.UintStrict IntSize environ name d)) /\
  (forall d, defenv.Uint64 IntSize environ name d
             = orDefault d (defenv.Uint64Strict IntSize environ name d)).
Proof.
  accessors. destruct (LookupEnv environ name) as [strVal [|]];
    [| repeat split].
  repeat apply conj; intros d.
  - now destruct (strconv.ParseBool strVal) as [v [e |]].
  - now destruct (ParseDuration strVal) as [v [e |]].
  - now destruct (ParseFloat strVal) as [v [e |]].
  - now destruct (strconv.ParseInt IntSize strVal 0) as [v [e |]].
  - now destruct (strconv.ParseInt IntSize strVal 64) as [v [e |]].
  - now destruct (strconv.ParseUint IntSize strVal 0) as [v [e |]].
  - now destruct (strconv.ParseUint IntSize strVal 64) as [v [e |]].
Qed.

(** X2. A strict accessor returns an error only when the variable is set and
    the parser of the type rejected its text with that very error; the value
    returned beside an error is always the zero value. *)
Theorem strict_error_comes_from_the_parser (environ : gmap string string)
    (name : string) :
  (forall d v e, defenv.BoolStrict environ name d = (v, Some e) ->
     v = false /\ exists s r, environ !! name = Some s
                              /\ strconv.ParseBool s = (r, Some e)) /\
  (forall d v e, defenv.DurationStrict ParseDuration environ name d = (v, Some e) ->
     v = 0 /\ exists s r, environ !! name = Some s
                          /\ ParseDuration s = (r, Some e)) /\
  (forall d v e, defenv.Float64Strict ParseFloat environ name d = (v, Some e) ->
     v = 0%float /\ exists s r, environ !! name = Some s
                                /\ ParseFloat s = (r, Some e)) /\
  (forall d v e, defenv.IntStrict IntSize environ name d = (v, Some e) ->
     v = 0 /\ exists s r, environ !! name = Some s
                          /\ strconv.ParseInt IntSize s 0 = (r, Some e)) /\
  (forall d v e, defenv.Int64Strict IntSize environ name d = (v, Some e) ->
     v = 0 /\ exists s r, environ !! name = Some s
                          /\ strconv.ParseInt IntSize s 64 = (r, Some e)) /\
  (forall d v e, defenv.UintStrict IntSize environ name d = (v, Some e) ->
     v = 0 /\ exists s r, environ !! name = Some s
                          /\ strconv.ParseUint IntSize s 0 = (r, Some e)) /\
  (forall d v e, defenv.Uint64Strict IntSize environ name d = (v, Some e) ->
     v = 0 /\ exists s r, environ !! name = Some s
                          /\ strconv.ParseUint IntSize s 64 = (r, Some e)).
Proof.
  accessors. unfold LookupEnv.
  destruct (environ !! name) as [strVal |];
    [| repeat split; discriminate].
  repeat apply conj; intros d v e.
  - destruct (strconv.ParseBool strVal) as [r [e' |]] eqn:Hp; intros [= <- <-].
    split; [reflexivity | now exists strVal, r].
  - destruct (ParseDuration strVal) as [r [e' |]] eqn:Hp; intros [= <- <-].
    split; [reflexivity | now exists strVal, r].
  - destruct (ParseFloat strVal) as [r [e' |]] eqn:Hp; intros [= <- <-].
    split; [reflexivity | now exists strVal, r].
  - destruct (strconv.ParseInt IntSize strVal 0) as [r [e' |]] eqn:Hp;
      intros [= <- <-].
    split; [reflexivity | now exists strVal, r].
  - destruct (strconv.ParseInt IntSize strVal 64) as [r [e' |]] eqn:Hp;
      intros [= <- <-].
    split; [reflexivity | now exists strVal, r].
  - destruct (strconv.ParseUint IntSize strVal 0) as [r [e' |]] eqn:Hp;
      intros [= <- <-].
    split; [reflexivity | now exists strVal, r].
  - destruct (strconv.ParseUint IntSize strVal 64) as [r [e' |]] eqn:Hp;
      intros [= <- <-].
    split; [reflexivity | now exists strVal, r].
Qed.

(** X3. Once the variable is set, the default plays no part in what a strict
    accessor returns: two calls with different defaults give the same value
    and the same error. *)
Theorem strict_ignores_default_when_set (environ : gmap string string)
    (name strVal : string) :
  environ !! name = Some strVal ->
  (forall d1 d2, defenv.BoolStrict environ name d1
                 = defenv.BoolStrict environ name d2) /\
  (forall d1 d2, defenv.DurationStrict ParseDuration environ name d1
                 = defenv.DurationStrict ParseDuration environ name d2) /\
  (forall d1 d2, defenv.Float64Strict ParseFloat environ name d1
                 = defenv.Float64Strict ParseFloat environ name d2) /\
  (forall d1 d2, defenv.IntStrict IntSize environ name d1
                 = defenv.IntStrict IntSize environ name d2) /\
  (forall d1 d2, defenv.Int64Strict IntSize environ name d1
                 = defenv.Int64Strict IntSize environ name d2) /\
  (forall d1 d2, defenv.UintStrict IntSize environ name d1
                 = defenv.UintStrict IntSize environ name d2) /\
  (forall d1 d2, defenv.Uint64Strict IntSize environ name d1
                 = defenv.Uint64Strict IntSize environ name d2).
Proof.
  intros Hset. accessors. rewrite (LookupEnv_present _ _ _ Hset).
  repeat split.
Qed.

(** X4. On a 32- or 64-bit platform the integer accessors return values of
    their type whenever the default is one: [Int] and [IntStrict] stay in the
    range of [int], [Int64] and [Int64Strict] in that of [int64], [Uint] and
    [UintStrict] in that of [uint], [Uint64] and [Uint64Strict] in that of
    [uint64]. *)
Theorem integer_results_in_range (environ : gmap string string) (name : string) :
  IntSize = 32 \/ IntSize = 64 ->
  (forall d, inSignedRange IntSize d ->
     inSignedRange IntSize (defenv.Int IntSize environ name d)
     /\ inSignedRange IntSize (fst (defenv.IntStrict IntSize environ name d))) /\
  (forall d, inSignedRange 64 d ->
     inSignedRange 64 (defenv.Int64 IntSize environ name d)
     /\ inSignedRange 64 (fst (defenv.Int64Strict IntSize environ name d))) /\
  (forall d, inUnsignedRange IntSize d ->
     inUnsignedRange IntSize (defenv.Uint IntSize environ name d)
     /\ inUnsignedRange IntSize (fst (defenv.UintStrict IntSize environ name d))) /\
  (forall d, inUnsignedRange 64 d ->
     inUnsignedRange 64 (defenv.Uint64 IntSize environ name d)
     /\ inUnsignedRange 64 (fst (defenv.Uint64Strict IntSize environ name d))).
Proof.
  intros Hsz.
  assert (Hpos : 0 < IntSize) by (destruct Hsz; lia).
  assert (Hz : inSignedRange IntSize 0 /\ inSignedRange 64 0
               /\ inUnsignedRange IntSize 0 /\ inUnsignedRange 64 0).
  { unfold inSignedRange, inUnsignedRange.
    destruct Hsz as [-> | ->]; simpl; lia. }
  destruct Hz as (Hz1 & Hz2 & Hz3 & Hz4).
  accessors. destruct (LookupEnv environ name) as [strVal [|]];
    [| repeat apply conj; intros d Hd; split; exact Hd].
  repeat apply conj; intros d Hd.
  - destruct (strconv.ParseInt IntSize strVal 0) as [v [e |]]; cbn [fst];
      auto using signed_wrap_range.
  - destruct (strconv.ParseInt IntSize strVal 64) as [v [e |]] eqn:Hp; cbn [fst];
      auto.
    apply (ParseInt_cases IntSize Hsz 64 (or_intror eq_refl)) in Hp.
    destruct Hp as [[_ Hr] | [[? _] | ?]]; try discriminate. auto.
  - assert (Hmod : forall v, inUnsignedRange IntSize (defenv.uint IntSize v)).
    { intros v. unfold inUnsignedRange, defenv.uint.
      pose proof (Z.mod_pos_bound v (2 ^ IntSize)
                    ltac:(apply Z.pow_pos_nonneg; lia)). lia. }
    destruct (strconv.ParseUint IntSize strVal 0) as [v [e |]]; cbn [fst]; auto.
  - destruct (strconv.ParseUint IntSize strVal 64) as [v [e |]] eqn:Hp; cbn [fst];
      auto.
    apply (ParseUint_cases IntSize Hsz 64 (or_intror eq_refl)) in Hp.
    destruct Hp as [[_ Hr] | [[? _] | [? _]]]; try discriminate.
    unfold inUnsignedRange. split; apply Hr.
Qed.

End forms.

(** ** The texts the integer and boolean accessors accept *)

Section accepted_texts.

Variable IntSize : Z.
Hypothesis IntSize_spec : IntSize = 32 \/ IntSize = 64.

(** X5. The unsigned strict accessors succeed on exactly the non-empty texts
    of decimal digits (no sign, no blank, no letter, no underscore) whose
    number fits the type, and then return that number. *)
Theorem unsigned_accept_exactly_digit_texts (environ : gmap string string)
    (name strVal : string) (d v : Z) :
  environ !! name = Some strVal ->
  (defenv.UintStrict IntSize environ name d = (v, nil)
   <-> strVal <> "" /\ allDigits strVal = true
       /\ v = digitsValue 0 strVal /\ v <= 2 ^ IntSize - 1)
  /\ (defenv.Uint64Strict IntSize environ name d = (v, nil)
      <-> strVal <> "" /\ allDigits strVal = true
          /\ v = digitsValue 0 strVal /\ v <= 2 ^ 64 - 1).
Proof.
  intros Hset. accessors. rewrite (LookupEnv_present _ _ _ Hset).
  pose proof (ParseUint_accepts IntSize IntSize_spec 0 (or_introl eq_refl) strVal)
    as H0.
  pose proof (ParseUint_accepts IntSize IntSize_spec 64 (or_intror eq_refl) strVal)
    as H64.
  change (width IntSize 0) with IntSize in H0.
  change (width IntSize 64) with 64 in H64.
  split.
  - destruct (strconv.ParseUint IntSize strVal 0) as [u [e |]] eqn:Hp.
    + split; [discriminate |]. intros Hacc. apply H0 in Hacc. discriminate.
    + assert (Hu : defenv.uint IntSize u = u).
      { destruct (proj1 (H0 u) eq_refl) as (_ & Hall & -> & Hfit).
        unfold defenv.uint. apply Z.mod_small.
        pose proof (digitsValue_ge strVal 0 ltac:(lia) Hall). lia. }
      rewrite Hu. rewrite <- H0. unfold nil in *. split; congruence.
  - destruct (strconv.ParseUint IntSize strVal 64) as [u [e |]] eqn:Hp.
    + split; [discriminate |]. intros Hacc. apply H64 in Hacc. discriminate.
    + rewrite <- H64. unfold nil in *. split; congruence.
Qed.

(** X6. The signed strict accessors succeed on exactly the integer texts (an
    optional plus or minus sign and one or more decimal digits) whose number
    fits the type, and then return that number. *)
Theorem signed_accept_exactly_integer_texts (environ : gmap string string)
    (name strVal : string) (d v : Z) :
  environ !! name = Some strVal ->
  (defenv.IntStrict IntSize environ name d = (v, nil)
   <-> isIntText strVal = true /\ v = intTextValue strVal
       /\ inSignedRange IntSize v)
  /\ (defenv.Int64Strict IntSize environ name d = (v, nil)
      <-> isIntText strVal = true /\ v = intTextValue strVal
          /\ inSignedRange 64 v).
Proof.
  intros Hset. accessors. rewrite (LookupEnv_present _ _ _ Hset).
  pose proof (ParseInt_accepts IntSize IntSize_spec 0 (or_introl eq_refl) strVal)
    as H0.
  pose proof (ParseInt_accepts IntSize IntSize_spec 64 (or_intror eq_refl) strVal)
    as H64.
  change (width IntSize 0) with IntSize in H0.
  change (width IntSize 64) with 64 in H64.
  split.
  - destruct (strconv.ParseInt IntSize strVal 0) as [i [e |]] eqn:Hp.
    + split; [discriminate |]. intros Hacc. apply H0 in Hacc. discriminate.
    + assert (Hi : defenv.int IntSize i = i).
      { destruct (proj1 (H0 i) eq_refl) as (_ & _ & Hr).
        unfold defenv.int. apply signed_wrap_small; [| exact Hr].
        destruct IntSize_spec; lia. }
      rewrite Hi. rewrite <- H0. unfold nil in *. split; congruence.
  - destruct (strconv.ParseInt IntSize strVal 64) as [i [e |]] eqn:Hp.
    + split; [discriminate |]. intros Hacc. apply H64 in Hacc. discriminate.
    + rewrite <- H64. unfold nil in *. split; congruence.
Qed.

(** X7. Digits that already exceed the range of the unsigned type are a
    range error whatever follows them, even a byte that is not a digit: the
    overflow is reported first. The ordinary forms return the default. *)
Theorem unsigned_overflow_reported_first (environ : gmap string string)
    (name ds rest : string) (d : Z) :
  environ !! name = Some (ds +:+ rest) ->
  allDigits ds = true ->
  (2 ^ IntSize - 1 < digitsValue 0 ds ->
     defenv.Uint IntSize environ name d = d
     /\ defenv.UintStrict IntSize environ name d
        = (0, Some (NumError "ParseUint" (ds +:+ rest) ErrRange)))
  /\ (2 ^ 64 - 1 < digitsValue 0 ds ->
        defenv.Uint64 IntSize environ name d = d
        /\ defenv.Uint64Strict IntSize environ name d
           = (0, Some (NumError "ParseUint" (ds +:+ rest) ErrRange))).
Proof.
  intros Hset Hall. accessors. rewrite (LookupEnv_present _ _ _ Hset).
  split; intros Hover.
  - rewrite (ParseUint_overflow_first IntSize IntSize_spec 0 (or_introl eq_refl)
               ds rest Hall Hover).
    now split.
  - rewrite (ParseUint_overflow_first IntSize IntSize_spec 64 (or_intror eq_refl)
               ds rest Hall Hover).
    now split.
Qed.

(** X8. Integer text whose number lies outside the range of [int64] makes
    [Int64] return the default and [Int64Strict] return 0 with a range
    error, on a 32-bit platform as on a 64-bit one. *)
Theorem Int64_out_of_range_text (environ : gmap string string)
    (name strVal : string) (d : Z) :
  environ !! name = Some strVal ->
  isIntText strVal = true ->
  ~ inSignedRange 64 (intTextValue strVal) ->
  defenv.Int64 IntSize environ name d = d
  /\ defenv.Int64Strict IntSize environ name d
     = (0, Some (NumError "ParseInt" strVal ErrRange)).
Proof.
  intros Hset Htext Hout.
  destruct (ParseInt_intText IntSize IntSize_spec 64 (or_intror eq_refl)
              strVal Htext) as [_ Hrange].
  destruct (Hrange Hout) as [v Hparse].
  accessors. rewrite (LookupEnv_present _ _ _ Hset), Hparse. now split.
Qed.

(** X10. What the native-width strict accessors accept, the 64-bit ones
    accept with the same value: [Int64Strict] extends [IntStrict] and
    [Uint64Strict] extends [UintStrict]. *)
Theorem fixed_width_extends_native (environ : gmap string string)
    (name strVal : string) (d v : Z) :
  environ !! name = Some strVal ->
  (defenv.IntStrict IntSize environ name d = (v, nil) ->
   defenv.Int64Strict IntSize environ name d = (v, nil))
  /\ (defenv.UintStrict IntSize environ name d = (v, nil) ->
      defenv.Uint64Strict IntSize environ name d = (v, nil)).
Proof.
  intros Hset.
  assert (Hpow : 2 ^ IntSize <= 2 ^ 64 /\ 2 ^ (IntSize - 1) <= 2 ^ 63)
    by (destruct IntSize_spec as [-> | ->]; simpl; lia).
  accessors. rewrite (LookupEnv_present _ _ _ Hset).
  split.
  - destruct (strconv.ParseInt IntSize strVal 0) as [i [e |]] eqn:Hp;
      [discriminate |].
    intros [= <-].
    apply (ParseInt_accepts IntSize IntSize_spec 0 (or_introl eq_refl)) in Hp.
    destruct Hp as (Htext & Hval & Hr). change (width IntSize 0) with IntSize in Hr.
    assert (Hi : defenv.int IntSize i = i).
    { unfold defenv.int. apply signed_wrap_small; [| exact Hr].
      destruct IntSize_spec; lia. }
    rewrite Hi.
    assert (H64 : strconv.ParseInt IntSize strVal 64 = (i, nil)).
    { apply (ParseInt_accepts IntSize IntSize_spec 64 (or_intror eq_refl)).
      split; [exact Htext | split; [exact Hval |]].
      change (width IntSize 64) with 64.
      unfold inSignedRange in *. change (2 ^ (64 - 1)) with (2 ^ 63). lia. }
    now rewrite H64.
  - destruct (strconv.ParseUint IntSize strVal 0) as [u [e |]] eqn:Hp;
      [discriminate |].
    intros [= <-].
    apply (ParseUint_accepts IntSize IntSize_spec 0 (or_introl eq_refl)) in Hp.
    destruct Hp as (Hne & Hall & Hval & Hfit).
    change (width IntSize 0) with IntSize in Hfit.
    pose proof (digitsValue_ge strVal 0 ltac:(lia) Hall) as Hnn.
    assert (Hu : defenv.uint IntSize u = u).
    { unfold defenv.uint. apply Z.mod_small. lia. }
    rewrite Hu.
    assert (H64 : strconv.ParseUint IntSize strVal 64 = (u, nil)).
    { apply (ParseUint_accepts IntSize IntSize_spec 64 (or_intror eq_refl)).
      repeat split; try assumption. change (width IntSize 64) with 64. lia. }
    now rewrite H64.
Qed.

End accepted_texts.

(** ** Signs, leading zeros and other first bytes *)

(** A first byte that is not a decimal digit ends the loop of [ParseUint]
    with a syntax error, before any range check. *)
Lemma ParseUint_loop_non_digit s0 maxVal c rest n :
  isDigit c = false ->
  strconv.ParseUint_loop s0 maxVal (String c rest) n
  = (0, Some (strconv.syntaxError "ParseUint" s0)).
Proof.
  intros Hc. cbn [strconv.ParseUint_loop].
  destruct (strconv.digitVal (Go.byte_of c)) as [dv |] eqn:Hd; [| reflexivity].
  destruct (dv >=? strconv.base) eqn:Hbase; [reflexivity |].
  destruct (digitVal_below_base c dv Hd Hbase) as [Hdigit _]. congruence.
Qed.

Lemma intTextValue_digits s :
  s <> "" -> allDigits s = true ->
  isIntText s = true /\ intTextValue s = digitsValue 0 s.
Proof.
  intros Hne Hall. destruct s as [| c rest]; [congruence |].
  pose proof Hall as Hc. simpl in Hc. apply andb_true_iff in Hc as [Hc _].
  destruct (isDigit_not_sign c Hc) as [Hplus Hminus].
  unfold isIntText, intTextValue. rewrite Hplus, Hminus. now split.
Qed.

Section first_bytes.

Variable IntSize : Z.

(** X9. A text whose first byte is not a decimal digit (a sign, a blank, a
    letter, ...) is a syntax error for the unsigned accessors, whatever
    follows and whatever the platform width. *)
Theorem unsigned_reject_non_digit_start (environ : gmap string string)
    (name : string) (c : ascii) (rest : string) (d : Z) :
  environ !! name = Some (String c rest) ->
  isDigit c = false ->
  defenv.Uint IntSize environ name d = d
  /\ defenv.Uint64 IntSize environ name d = d
  /\ defenv.UintStrict IntSize environ name d
     = (0, Some (NumError "ParseUint" (String c rest) ErrSyntax))
  /\ defenv.Uint64Strict IntSize environ name d
     = (0, Some (NumError "ParseUint" (String c rest) ErrSyntax)).
Proof.
  intros Hset Hc. accessors. rewrite (LookupEnv_present _ _ _ Hset).
  unfold strconv.ParseUint. cbn [String.eqb].
  change ((0 <? 0) || (0 >? 64)) with false.
  change ((64 <? 0) || (64 >? 64)) with false. cbv iota.
  rewrite !(ParseUint_loop_non_digit _ _ c rest 0 Hc).
  repeat split.
Qed.

Hypothesis IntSize_spec : IntSize = 32 \/ IntSize = 64.

(** The signed ordinary accessors on integer text: the number written when
    it fits the type, the default otherwise. *)
Lemma signed_on_integer_text (environ : gmap string string)
    (name strVal : string) (d : Z) :
  environ !! name = Some strVal ->
  isIntText strVal = true ->
  defenv.Int IntSize environ name d
  = (if inSignedRangeb IntSize (intTextValue strVal)
     then intTextValue strVal else d)
  /\ defenv.Int64 IntSize environ name d
     = (if inSignedRangeb 64 (intTextValue strVal)
        then intTextValue strVal else d).
Proof.
  intros Hset Htext. accessors. rewrite (LookupEnv_present _ _ _ Hset).
  destruct (ParseInt_intText IntSize IntSize_spec 0 (or_introl eq_refl)
              strVal Htext) as [Hin0 Hout0].
  destruct (ParseInt_intText IntSize IntSize_spec 64 (or_intror eq_refl)
              strVal Htext) as [Hin64 Hout64].
  change (width IntSize 0) with IntSize in *.
  change (width IntSize 64) with 64 in *.
  split.
  - destruct (inSignedRangeb IntSize (intTextValue strVal)) eqn:Hr.
    + apply inSignedRangeb_spec in Hr. rewrite (Hin0 Hr).
      unfold defenv.int. apply signed_wrap_small; [| exact Hr].
      destruct IntSize_spec; lia.
    + destruct Hout0 as [v ->]; [| reflexivity].
      rewrite <- inSignedRangeb_spec. congruence.
  - destruct (inSignedRangeb 64 (intTextValue strVal)) eqn:Hr.
    + apply inSignedRangeb_spec in Hr. now rewrite (Hin64 Hr).
    + destruct Hout64 as [v ->]; [| reflexivity].
      rewrite <- inSignedRangeb_spec. congruence.
Qed.

(** The unsigned ordinary accessors on a non-empty text of digits. *)
Lemma unsigned_on_digit_text (environ : gmap string string)
    (name strVal : string) (d : Z) :
  environ !! name = Some strVal ->
  strVal <> "" -> allDigits strVal = true ->
  defenv.Uint IntSize environ name d
  = (if digitsValue 0 strVal <=? 2 ^ IntSize - 1
     then digitsValue 0 strVal else d)
  /\ defenv.Uint64 IntSize environ name d
     = (if digitsValue 0 strVal <=? 2 ^ 64 - 1
        then digitsValue 0 strVal else d).
Proof.
  intros Hset Hne Hall. accessors. rewrite (LookupEnv_present _ _ _ Hset).
  rewrite (ParseUint_digits IntSize IntSize_spec 0 (or_introl eq_refl)
             strVal Hne Hall).
  rewrite (ParseUint_digits IntSize IntSize_spec 64 (or_intror eq_refl)
             strVal Hne Hall).
  change (width IntSize 0) with IntSize. change (width IntSize 64) with 64.
  pose proof (digitsValue_ge strVal 0 ltac:(lia) Hall) as Hnn.
  split.
  - destruct (Z.leb_spec (digitsValue 0 strVal) (2 ^ IntSize - 1)); [| reflexivity].
    unfold defenv.uint. apply Z.mod_small. lia.
  - destruct (Z.leb_spec (digitsValue 0 strVal) (2 ^ 64 - 1)); reflexivity.
Qed.

(** X11. A plus sign before the digits changes nothing for the signed
    accessors: [Int] and [Int64] return the same result for the text with and
    without it. *)
Theorem plus_sign_changes_nothing (environ : gmap string string)
    (name ds : string) (d : Z) :
  allDigits ds = true ->
  defenv.Int IntSize (<[name := String "+" ds]> environ) name d
  = defenv.Int IntSize (<[name := ds]> environ) name d
  /\ defenv.Int64 IntSize (<[name := String "+" ds]> environ) name d
     = defenv.Int64 IntSize (<[name := ds]> environ) name d.
Proof.
  intros Hall. destruct ds as [| c ds'].
  { accessors. rewrite !(LookupEnv_present _ name _ (lookup_insert_eq _ _ _)).
    destruct IntSize_spec as [-> | ->]; split; reflexivity. }
  set (ds := String c ds') in *.
  assert (Hne : ds <> "") by discriminate.
  destruct (intTextValue_digits ds Hne Hall) as [Htext Hval].
  assert (Htext' : isIntText (String "+" ds) = true).
  { unfold isIntText. cbn [Ascii.eqb orb]. simpl Ascii.eqb. cbn [orb].
    apply String.eqb_neq in Hne. now rewrite Hne, Hall. }
  assert (Hval' : intTextValue (String "+" ds) = intTextValue ds).
  { now rewrite Hval. }
  destruct (signed_on_integer_text (<[name := String "+" ds]> environ) name _ d
              (lookup_insert_eq _ _ _) Htext') as [-> ->].
  destruct (signed_on_integer_text (<[name := ds]> environ) name _ d
              (lookup_insert_eq _ _ _) Htext) as [-> ->].
  rewrite Hval'. now split.
Qed.

(** X13. Leading zeros are digits like any other, never an octal prefix:
    the integer accessors return the same result for a text of digits with
    and without a zero in front. *)
Theorem leading_zero_changes_nothing (environ : gmap string string)
    (name ds : string) (d : Z) :
  ds <> "" -> allDigits ds = true ->
  defenv.Uint IntSize (<[name := String "0" ds]> environ) name d
  = defenv.Uint IntSize (<[name := ds]> environ) name d
  /\ defenv.Uint64 IntSize (<[name := String "0" ds]> environ) name d
     = defenv.Uint64 IntSize (<[name := ds]> environ) name d
  /\ defenv.Int IntSize (<[name := String "0" ds]> environ) name d
     = defenv.Int IntSize (<[name := ds]> environ) name d
  /\ defenv.Int64 IntSize (<[name := String "0" ds]> environ) name d
     = defenv.Int64 IntSize (<[name := ds]> environ) name d.
Proof.
  intros Hne Hall.
  assert (Hne0 : String "0" ds <> "") by discriminate.
  assert (Hall0 : allDigits (String "0" ds) = true) by (simpl; exact Hall).
  assert (Hval0 : digitsValue 0 (String "0" ds) = digitsValue 0 ds) by reflexivity.
  destruct (intTextValue_digits ds Hne Hall) as [Htext Hval].
  destruct (intTextValue_digits _ Hne0 Hall0) as [Htext0 Hv0].
  destruct (unsigned_on_digit_text (<[name := String "0" ds]> environ) name _ d
              (lookup_insert_eq _ _ _) Hne0 Hall0) as [-> ->].
  destruct (unsigned_on_digit_text (<[name := ds]> environ) name _ d
              (lookup_insert_eq _ _ _) Hne Hall) as [-> ->].
  destruct (signed_on_integer_text (<[name := String "0" ds]> environ) name _ d
              (lookup_insert_eq _ _ _) Htext0) as [-> ->].
  destruct (signed_on_integer_text (<[name := ds]> environ) name _ d
              (lookup_insert_eq _ _ _) Htext) as [-> ->].
  rewrite Hv0, Hval0, Hval. repeat split.
Qed.

End first_bytes.

(** X12. [Bool] returns the opposite of its default only when the variable
    is set to one of the six tokens of that truth value; an unset variable or
    any other text leaves the default in place. *)
Theorem Bool_overrides_default_only_on_token (environ : gmap string string)
    (name : string) (d : bool) :
  defenv.Bool environ name d = negb d ->
  exists strVal,
    environ !! name = Some strVal
    /\ In strVal (if d then ["0"; "f"; "F"; "false"; "FALSE"; "False"]
                  else ["1"; "t"; "T"; "true"; "TRUE"; "True"]).
Proof.
  unfold defenv.Bool, LookupEnv, strconv.ParseBool.
  destruct (environ !! name) as [strVal |]; [| now destruct d].
  destruct (existsb (String.eqb strVal) ["1"; "t"; "T"; "true"; "TRUE"; "True"])
    eqn:Ht.
  - intros Hres. destruct d; [discriminate |].
    apply existsb_exists in Ht as (t & Hin & Heq).
    apply String.eqb_eq in Heq as <-. now exists strVal.
  - destruct (existsb (String.eqb strVal)
                ["0"; "f"; "F"; "false"; "FALSE"; "False"]) eqn:Hf.
    + intros Hres. destruct d; [| discriminate].
      apply existsb_exists in Hf as (t & Hin & Heq).
      apply String.eqb_eq in Heq as <-. now exists strVal.
    + intros Hres. now destruct d.
Qed.

(** ** The further properties at concrete inputs *)

Lemma strict_ignores_default_when_set_witness :
  setenv "bad" !! "VALUE" = Some "bad"
  /\ defenv.BoolStrict (setenv "bad") "VALUE" true
     = defenv.BoolStrict (setenv "bad") "VALUE" false
  /\ defenv.DurationStrict ParseDuration (setenv "bad") "VALUE" d3s
     = defenv.DurationStrict ParseDuration (setenv "bad") "VALUE" 0
  /\ defenv.Uint64Strict IntSize (setenv "bad") "VALUE" 321
     = defenv.Uint64Strict IntSize (setenv "bad") "VALUE" 8.
Proof.
  assert (Hset : setenv "bad" !! "VALUE" = Some "bad") by (vm_compute; reflexivity).
  destruct (strict_ignores_default_when_set IntSize ParseFloat ParseDuration
              (setenv "bad") "VALUE" "bad" Hset)
    as (Hb & Hd & _ & _ & _ & _ & Hu64).
  repeat apply conj; [exact Hset | apply Hb | apply Hd | apply Hu64].
Defined.

Lemma integer_results_in_range_witness :
  (IntSize = 32 \/ IntSize = 64)
  /\ inSignedRange IntSize 321
  /\ inSignedRange IntSize
       (defenv.Int IntSize (setenv "12345678901234567890") "VALUE" 321)
  /\ inUnsignedRange 64 321
  /\ inUnsignedRange 64
       (defenv.Uint64 IntSize (setenv "12345678901234567890") "VALUE" 321).
Proof.
  assert (Hsz : IntSize = 32 \/ IntSize = 64) by (right; reflexivity).
  assert (Hs : inSignedRange IntSize 321)
    by (unfold inSignedRange, IntSize; simpl; lia).
  assert (Hu : inUnsignedRange 64 321) by (unfold inUnsignedRange; simpl; lia).
  destruct (integer_results_in_range IntSize (setenv "12345678901234567890")
              "VALUE" Hsz) as (Hi & _ & _ & Hu64).
  destruct (Hi 321 Hs) as [Hint _]. destruct (Hu64 321 Hu) as [Huint _].
  split; [exact Hsz | split; [exact Hs | split; [exact Hint |]]].
  split; [exact Hu | exact Huint].
Defined.

Lemma unsigned_accept_exactly_digit_texts_witness :
  (IntSize = 32 \/ IntSize = 64)
  /\ setenv "0123" !! "VALUE" = Some "0123"
  /\ defenv.UintStrict IntSize (setenv "0123") "VALUE" 321 = (123, nil)
  /\ defenv.Uint64Strict IntSize (setenv "0123") "VALUE" 321 = (123, nil).
Proof.
  assert (Hsz : IntSize = 32 \/ IntSize = 64) by (right; reflexivity).
  assert (Hset : setenv "0123" !! "VALUE" = Some "0123") by (vm_compute; reflexivity).
  destruct (unsigned_accept_exactly_digit_texts IntSize Hsz (setenv "0123")
              "VALUE" "0123" 321 123 Hset) as [[_ H0] [_ H64]].
  repeat apply conj; [exact Hsz | exact Hset | apply H0 | apply H64];
    (split; [discriminate | split; [reflexivity | split; [reflexivity |]]];
     vm_compute; discriminate).
Defined.

Lemma signed_accept_exactly_integer_texts_witness :
  (IntSize = 32 \/ IntSize = 64)
  /\ setenv "-1" !! "VALUE" = Some "-1"
  /\ defenv.IntStrict IntSize (setenv "-1") "VALUE" 321 = (-1, nil)
  /\ defenv.Int64Strict IntSize (setenv "-1") "VALUE" 321 = (-1, nil).
Proof.
  assert (Hsz : IntSize = 32 \/ IntSize = 64) by (right; reflexivity).
  assert (Hset : setenv "-1" !! "VALUE" = Some "-1") by (vm_compute; reflexivity).
  destruct (signed_accept_exactly_integer_texts IntSize Hsz (setenv "-1")
              "VALUE" "-1" 321 (-1) Hset) as [[_ H0] [_ H64]].
  repeat apply conj; [exact Hsz | exact Hset | apply H0 | apply H64];
    (split; [reflexivity | split; [reflexivity |]];
     unfold inSignedRange; simpl; lia).
Defined.

Lemma unsigned_overflow_reported_first_witness :
  (IntSize = 32 \/ IntSize = 64)
  /\ setenv "123456789012345678901x" !! "VALUE"
     = Some ("123456789012345678901" +:+ "x")
  /\ allDigits "123456789012345678901" = true
  /\ 2 ^ 64 - 1 < digitsValue 0 "123456789012345678901"
  /\ defenv.Uint64 IntSize (setenv "123456789012345678901x") "VALUE" 321 = 321
  /\ defenv.Uint64Strict IntSize (setenv "123456789012345678901x") "VALUE" 321
     = (0, Some (NumError "ParseUint" "123456789012345678901x" ErrRange)).
Proof.
  assert (Hsz : IntSize = 32 \/ IntSize = 64) by (right; reflexivity).
  assert (Hset : setenv "123456789012345678901x" !! "VALUE"
                 = Some ("123456789012345678901" +:+ "x"))
    by (vm_compute; reflexivity).
  assert (Hall : allDigits "123456789012345678901" = true) by reflexivity.
  assert (Hover : 2 ^ 64 - 1 < digitsValue 0 "123456789012345678901")
    by (vm_compute; reflexivity).
  destruct (unsigned_overflow_reported_first IntSize Hsz _ "VALUE" _ _ 321
              Hset Hall) as [_ H64].
  destruct (H64 Hover) as [Hord Hstrict].
  repeat apply conj; assumption.
Defined.

Lemma Int64_out_of_range_text_witness :
  (IntSize = 32 \/ IntSize = 64)
  /\ setenv "-9223372036854775809" !! "VALUE" = Some "-9223372036854775809"
  /\ isIntText "-9223372036854775809" = true
  /\ ~ inSignedRange 64 (intTextValue "-9223372036854775809")
  /\ defenv.Int64 IntSize (setenv "-9223372036854775809") "VALUE" 321 = 321
  /\ defenv.Int64Strict IntSize (setenv "-9223372036854775809") "VALUE" 321
     = (0, Some (NumError "ParseInt" "-9223372036854775809" ErrRange)).
Proof.
  assert (Hsz : IntSize = 32 \/ IntSize = 64) by (right; reflexivity).
  assert (Hset : setenv "-9223372036854775809" !! "VALUE"
                 = Some "-9223372036854775809") by (vm_compute; reflexivity).
  assert (Htext : isIntText "-9223372036854775809" = true) by reflexivity.
  assert (Hout : ~ inSignedRange 64 (intTextValue "-9223372036854775809")).
  { unfold inSignedRange. vm_compute. intros [Hge _]. apply Hge. reflexivity. }
  destruct (Int64_out_of_range_text IntSize Hsz _ "VALUE" _ 321 Hset Htext Hout)
    as [Hord Hstrict].
  repeat apply conj; assumption.
Defined.

Lemma unsigned_reject_non_digit_start_witness :
  setenv "+1" !! "VALUE" = Some "+1"
  /\ isDigit "+" = false
  /\ defenv.Uint IntSize (setenv "+1") "VALUE" 321 = 321
  /\ defenv.Uint64 IntSize (setenv "+1") "VALUE" 321 = 321
  /\ defenv.UintStrict IntSize (setenv "+1") "VALUE" 321
     = (0, Some (NumError "ParseUint" "+1" ErrSyntax))
  /\ defenv.Uint64Strict IntSize (setenv "+1") "VALUE" 321
     = (0, Some (NumError "ParseUint" "+1" ErrSyntax)).
Proof.
  assert (Hset : setenv "+1" !! "VALUE" = Some "+1") by (vm_compute; reflexivity).
  assert (Hc : isDigit "+" = false) by reflexivity.
  destruct (unsigned_reject_non_digit_start IntSize (setenv "+1") "VALUE"
              "+"%char "1" 321 Hset Hc) as (H1 & H2 & H3 & H4).
  repeat apply conj; assumption.
Defined.

Lemma fixed_width_extends_native_witness :
  (32 = 32 \/ 32 = 64)
  /\ setenv "-2147483648" !! "VALUE" = Some "-2147483648"
  /\ defenv.IntStrict 32 (setenv "-2147483648") "VALUE" 321 = (-2147483648, nil)
  /\ defenv.Int64Strict 32 (setenv "-2147483648") "VALUE" 321
     = (-2147483648, nil).
Proof.
  assert (Hsz : 32 = 32 \/ 32 = 64) by (left; reflexivity).
  assert (Hset : setenv "-2147483648" !! "VALUE" = Some "-2147483648")
    by (vm_compute; reflexivity).
  assert (Hnative : defenv.IntStrict 32 (setenv "-2147483648") "VALUE" 321
                    = (-2147483648, nil)) by (vm_compute; reflexivity).
  destruct (fixed_width_extends_native 32 Hsz (setenv "-2147483648") "VALUE"
              "-2147483648" 321 (-2147483648) Hset) as [Hint _].
  repeat apply conj; [exact Hsz | exact Hset | exact Hnative | exact (Hint Hnative)].
Defined.

Lemma plus_sign_changes_nothing_witness :
  (IntSize = 32 \/ IntSize = 64)
  /\ allDigits "123" = true
  /\ defenv.Int IntSize (<["VALUE" := "+123"]> unset) "VALUE" 321
     = defenv.Int IntSize (<["VALUE" := "123"]> unset) "VALUE" 321
  /\ defenv.Int64 IntSize (<["VALUE" := "+123"]> unset) "VALUE" 321
     = defenv.Int64 IntSize (<["VALUE" := "123"]> unset) "VALUE" 321.
Proof.
  assert (Hsz : IntSize = 32 \/ IntSize = 64) by (right; reflexivity).
  assert (Hall : allDigits "123" = true) by reflexivity.
  destruct (plus_sign_changes_nothing IntSize Hsz unset "VALUE" "123" 321 Hall)
    as [H1 H2].
  repeat apply conj; assumption.
Defined.

Lemma leading_zero_changes_nothing_witness :
  (IntSize = 32 \/ IntSize = 64)
  /\ "10" <> "" /\ allDigits "10" = true
  /\ defenv.Uint IntSize (<["VALUE" := "010"]> unset) "VALUE" 321
     = defenv.Uint IntSize (<["VALUE" := "10"]> unset) "VALUE" 321
  /\ defenv.Int64 IntSize (<["VALUE" := "010"]> unset) "VALUE" 321
     = defenv.Int64 IntSize (<["VALUE" := "10"]> unset) "VALUE" 321.
Proof.
  assert (Hsz : IntSize = 32 \/ IntSize = 64) by (right; reflexivity).
  assert (Hne : "10" <> "") by discriminate.
  assert (Hall : allDigits "10" = true) by reflexivity.
  destruct (leading_zero_changes_nothing IntSize Hsz unset "VALUE" "10" 321
              Hne Hall) as (H1 & _ & _ & H4).
  repeat apply conj; assumption.
Defined.

Lemma Bool_overrides_default_only_on_token_witness :
  defenv.Bool (setenv "F") "VALUE" true = negb true
  /\ exists strVal,
       setenv "F" !! "VALUE" = Some strVal
       /\ In strVal ["0"; "f"; "F"; "false"; "FALSE"; "False"].
Proof.
  assert (Hres : defenv.Bool (setenv "F") "VALUE" true = negb true)
    by (vm_compute; reflexivity).
  split; [exact Hres |].
  exact (Bool_overrides_default_only_on_token (setenv "F") "VALUE" true Hres).
Defined.
